(** * Beehive: peer networking and offline synchronisation core

    A shallow embedding of [src/network/p2p.js] (class [P2PNetwork]) and
    [src/offline/capabilities.js] (class [OfflineCapabilities]).

    JavaScript objects become records and [Map]s insertion-ordered
    association lists.  A method becomes a function from the state of
    the instance to the state it leaves and its outcome: the value
    returned, or the exception thrown (for an [async] method, the
    rejection reason).  An awaited call runs to completion before the
    caller goes on; a call that is not awaited is recorded as pending.

    Libraries, and methods the two classes call but do not define, are
    fields of an interface (a type class) or parameters, so that a
    statement holds for whatever is plugged in.  The instance in which
    every such method throws the [TypeError] of a call to [undefined]
    is the class exactly as the file has it.  One missing method,
    [closeConnection], is also defined from the design document, and
    marked as such. *)

From Stdlib Require Import QArith.
From Stdlib Require Import String Ascii List ZArith NArith Lia Bool DecimalString.
Import ListNotations.

Local Open Scope string_scope.
Local Open Scope Z_scope.

(** ** JavaScript values *)

Module Js.

(** The values that cross the module boundaries: inbound messages,
    session descriptions, version vectors, diffs. *)
#[warnings="-register-all"]
Inductive JsValue : Type :=
| JUndefined
| JNull
| JBool (b : bool)
| JNumber (z : Z)
| JString (s : string)
| JObject (fields : list (string * JsValue))
| JArray (items : list JsValue).

(** [typeof v] *)
Definition typeof (v : JsValue) : string :=
  match v with
  | JUndefined => "undefined"
  | JNull => "object"
  | JBool _ => "boolean"
  | JNumber _ => "number"
  | JString _ => "string"
  | JObject _ => "object"
  | JArray _ => "object"
  end.

(** ToBoolean: what [if (v)], [!v] and [v && w] test. *)
Definition truthy (v : JsValue) : bool :=
  match v with
  | JUndefined => false
  | JNull => false
  | JBool b => b
  | JNumber z => negb (z =? 0)
  | JString s => negb (s =? "")%string
  | JObject _ => true
  | JArray _ => true
  end.

Fixpoint lookup_field (k : string) (fields : list (string * JsValue)) : JsValue :=
  match fields with
  | [] => JUndefined
  | (k', v) :: rest => if (k =? k')%string then v else lookup_field k rest
  end.

(** [v.k] for a [v] that is neither [undefined] nor [null]; a property
    that is absent reads as [undefined].  Only named (non-index,
    non-builtin) properties are read by the code. *)
Definition prop (v : JsValue) (k : string) : JsValue :=
  match v with
  | JObject fields => lookup_field k fields
  | _ => JUndefined
  end.

(** [v !== w] against [undefined]. *)
Definition is_undefined (v : JsValue) : bool :=
  match v with
  | JUndefined => true
  | _ => false
  end.

(** Exceptions: [new Error(message)] and the [TypeError] the runtime
    raises on [undefined.f] or on calling something that is not a
    function. *)
Inductive Exn : Type :=
| Error (message : string)
| TypeError (message : string).

(** Outcome of a call: the returned (resolved) value, or the exception
    thrown (the rejection reason). *)
Inductive Result (A : Type) : Type :=
| Ok (a : A)
| Throw (e : Exn).

Arguments Ok {A} a.
Arguments Throw {A} e.

(** [v.k] in full: reading a property of [undefined] or [null] throws. *)
Definition prop_strict (v : JsValue) (k : string) : Result JsValue :=
  match v with
  | JUndefined => Throw (TypeError "Cannot read properties of undefined")
  | JNull => Throw (TypeError "Cannot read properties of null")
  | _ => Ok (prop v k)
  end.

(** Records written by [setupLogging(component)]'s logger. *)
Inductive Level : Type := LInfo | LWarn | LError | LDebug.

Record LogEntry : Type := mkLog {
  level : Level;
  text : string;
  cause : option Exn
}.

End Js.

Import Js.

(** ** Sequential code with exceptions over a mutable state *)

Module Async.

(** A method body run to completion from state [s]: the state it
    leaves and its outcome.  A state change made before a [throw]
    stays made. *)
Definition M (S A : Type) : Type := S -> S * Result A.

Definition ret {S A} (a : A) : M S A := fun s => (s, Ok a).

Definition throw {S A} (e : Exn) : M S A := fun s => (s, Throw e).

Definition bind {S A B} (m : M S A) (k : A -> M S B) : M S B :=
  fun s =>
    match m s with
    | (s', Ok a) => k a s'
    | (s', Throw e) => (s', Throw e)
    end.

Definition gets {S A} (f : S -> A) : M S A := fun s => (s, Ok (f s)).

Definition modify {S} (f : S -> S) : M S unit := fun s => (f s, Ok tt).

(** [try { m } catch (err) { h err }] *)
Definition try_catch {S A} (m : M S A) (h : Exn -> M S A) : M S A :=
  fun s =>
    match m s with
    | (s', Ok a) => (s', Ok a)
    | (s', Throw e) => h e s'
    end.

(** [try { m } finally { fin }]: [fin] runs on both exits; the outcome
    of [m] is kept unless [fin] itself throws. *)
Definition try_finally {S A} (m : M S A) (fin : M S unit) : M S A :=
  fun s =>
    match m s with
    | (s', r) =>
        match fin s' with
        | (s'', Ok _) => (s'', r)
        | (s'', Throw e) => (s'', Throw e)
        end
    end.

(** Lifting a [Result] computed without touching the state. *)
Definition of_result {S A} (r : Result A) : M S A := fun s => (s, r).

(** [for (const x of xs) { body x }] with an awaiting body: sequential,
    left to right, aborted by the first exception that escapes. *)
Fixpoint forEach {S A} (xs : list A) (body : A -> M S unit) : M S unit :=
  match xs with
  | [] => ret tt
  | x :: rest => bind (body x) (fun _ => forEach rest body)
  end.

Declare Scope js_scope.
Delimit Scope js_scope with js.

Notation "x <- m ;; k" := (bind m (fun x => k))
  (at level 100, m at next level, right associativity) : js_scope.
Notation "m ;; k" := (bind m (fun _ => k))
  (at level 100, right associativity) : js_scope.

End Async.

Import Async.

(** ** [Map]: insertion-ordered, one entry per key *)

Module JsMap.

Definition t (V : Type) : Type := list (string * V).

Definition empty {V} : t V := [].

Fixpoint get {V} (k : string) (m : t V) : option V :=
  match m with
  | [] => None
  | (k', v) :: rest => if (k =? k')%string then Some v else get k rest
  end.

(** [m.set(k, v)]: an existing key keeps its position, a new key goes
    last. *)
Fixpoint set {V} (k : string) (v : V) (m : t V) : t V :=
  match m with
  | [] => [(k, v)]
  | (k', v') :: rest =>
      if (k =? k')%string then (k', v) :: rest else (k', v') :: set k v rest
  end.

(** [m.delete(k)] *)
Definition delete {V} (k : string) (m : t V) : t V :=
  filter (fun kv => negb (fst kv =? k)%string) m.

Definition size {V} (m : t V) : Z := Z.of_nat (length m).

Definition keys {V} (m : t V) : list string := map fst m.

End JsMap.

(** ** [src/offline/capabilities.js] *)

Module Offline.

Local Open Scope js_scope.

(** [this.syncState] *)
Record SyncState : Type := mkSyncState {
  lastSync : option Z;
  syncInProgress : bool;
  pendingChanges : list string;
  versionVector : JsMap.t JsValue
}.

(** The constructor's value. *)
Definition initialSyncState : SyncState :=
  {| lastSync := None;
     syncInProgress := false;
     pendingChanges := [];
     versionVector := JsMap.empty |}.

Definition set_syncInProgress (b : bool) (s : SyncState) : SyncState :=
  {| lastSync := lastSync s;
     syncInProgress := b;
     pendingChanges := pendingChanges s;
     versionVector := versionVector s |}.

Definition set_lastSync (t : Z) (s : SyncState) : SyncState :=
  {| lastSync := Some t;
     syncInProgress := syncInProgress s;
     pendingChanges := pendingChanges s;
     versionVector := versionVector s |}.

(** Calls that leave the class, in the order they were made. *)
Inductive Call : Type :=
| CallGetLocalChanges
| CallGetVersionVector (peerId : string)
| CallCompareVersionVectors (peerId : string)
| CallExchangeChanges (peerId : string)
| CallUpdateVersionVector (peerId : string).

Section WithEnvironment.

(** [E] is everything outside the class: the clock, the network, the
    peers' own state. *)
Context {E : Type}.

(** An element of the [peers] argument: an object with an [id] and an
    async [getVersionVector] method. *)
Record SyncPeer : Type := mkSyncPeer {
  id : string;
  getVersionVector : E -> E * Result JsValue
}.

(** A method of the class acting on [this.syncState] and the outside. *)
Definition Method (A : Type) : Type := SyncState -> E -> SyncState * E * Result A.

(** [syncWithPeers] calls four methods that [capabilities.js] does not
    define, and [Date.now()].  They are the pluggable strategy of the
    sync engine; nothing is assumed of them. *)
Class SyncStrategy : Type := {
  Date_now : E -> Z;
  getLocalChanges : Method JsValue;
  compareVersionVectors : JsValue -> Method JsValue;
  exchangeChanges : SyncPeer -> JsValue -> Method unit;
  updateVersionVector : string -> JsValue -> Method unit
}.

(** The instance of [OfflineCapabilities] together with its logger, the
    record of outgoing calls, and the outside. *)
Record World : Type := mkWorld {
  syncState : SyncState;
  log : list LogEntry;
  calls : list Call;
  ext : E
}.

Definition with_syncState (f : SyncState -> SyncState) (w : World) : World :=
  {| syncState := f (syncState w); log := log w; calls := calls w; ext := ext w |}.

Definition logger (l : Level) (msg : string) (err : option Exn) : M World unit :=
  modify (fun w =>
    {| syncState := syncState w;
       log := log w ++ [mkLog l msg err];
       calls := calls w;
       ext := ext w |}).

Definition record (c : Call) : M World unit :=
  modify (fun w =>
    {| syncState := syncState w; log := log w; calls := calls w ++ [c]; ext := ext w |}).

(** [await this.f(...)] for a strategy method [f]. *)
Definition invoke {A} (c : Call) (f : Method A) : M World A :=
  record c ;;
  (fun w =>
     match f (syncState w) (ext w) with
     | (s, e, r) =>
         ({| syncState := s; log := log w; calls := calls w; ext := e |}, r)
     end).

(** [await peer.getVersionVector()] *)
Definition invoke_getVersionVector (peer : SyncPeer) : M World JsValue :=
  record (CallGetVersionVector (id peer)) ;;
  (fun w =>
     match getVersionVector peer (ext w) with
     | (e, r) =>
         ({| syncState := syncState w; log := log w; calls := calls w; ext := e |}, r)
     end).

(** The state in which the loop starts, when [getLocalChanges] resolves
    to leave [s] and [e]. *)
Definition loop_entry (w : World) (s : SyncState) (e : E) : World :=
  {| syncState := s;
     log := log w;
     calls := calls w ++ [CallGetLocalChanges];
     ext := e |}.

Context {strategy : SyncStrategy}.

(** The body of the [for (const peer of peers)] loop, lines 185-200. *)
Definition syncWithPeers_body (peer : SyncPeer) : M World unit :=
  try_catch
    (peerVector <- invoke_getVersionVector peer ;;
     diff <- invoke (CallCompareVersionVectors (id peer)) (compareVersionVectors peerVector) ;;
     needsUpdate <- of_result (prop_strict diff "needsUpdate") ;;
     (if truthy needsUpdate
      then invoke (CallExchangeChanges (id peer)) (exchangeChanges peer diff)
      else ret tt) ;;
     invoke (CallUpdateVersionVector (id peer)) (updateVersionVector (id peer) peerVector))
    (fun err =>
       logger LError ("Failed to sync with peer " ++ id peer ++ ":") (Some err)).

(** [async syncWithPeers(peers)], lines 170-208. *)
Definition syncWithPeers (peers : list SyncPeer) : M World unit :=
  inProgress <- gets (fun w => syncInProgress (syncState w)) ;;
  if inProgress
  then logger LWarn "Sync already in progress" None
  else
    try_finally
      (try_catch
         (modify (with_syncState (set_syncInProgress true)) ;;
          now <- gets (fun w => Date_now (ext w)) ;;
          modify (with_syncState (set_lastSync now)) ;;
          changes <- invoke CallGetLocalChanges getLocalChanges ;;
          forEach peers syncWithPeers_body)
         (fun err => logger LError "Sync failed:" (Some err) ;; throw err))
      (modify (with_syncState (set_syncInProgress false))).

End WithEnvironment.

Arguments SyncPeer E : clear implicits.
Arguments Method E A : clear implicits.
Arguments SyncStrategy E : clear implicits.
Arguments World E : clear implicits.

(** The peer ids whose [getVersionVector] was called, oldest first. *)
Fixpoint contacted (cs : list Call) : list string :=
  match cs with
  | [] => []
  | CallGetVersionVector p :: rest => p :: contacted rest
  | _ :: rest => contacted rest
  end.

(** *** Two concrete environments

    The outside is a clock reading.  [as_shipped] is the class exactly
    as the file defines it: the four strategy methods do not exist, so
    calling them throws.  [stubbed] plugs in the simplest strategy that
    resolves, as the test suite's mocks do. *)

Definition not_a_function {A} (name : string) : Method Z A :=
  fun s e => (s, e, Throw (TypeError ("this." ++ name ++ " is not a function"))).

Definition as_shipped : SyncStrategy Z :=
  {| Date_now := fun e => e;
     getLocalChanges := not_a_function "getLocalChanges";
     compareVersionVectors := fun _ => not_a_function "compareVersionVectors";
     exchangeChanges := fun _ _ => not_a_function "exchangeChanges";
     updateVersionVector := fun _ _ => not_a_function "updateVersionVector" |}.

Definition stubbed : SyncStrategy Z :=
  {| Date_now := fun e => e;
     getLocalChanges := fun s e => (s, e, Ok (JArray []));
     compareVersionVectors := fun _ s e =>
       (s, e, Ok (JObject [("needsUpdate", JBool false)]));
     exchangeChanges := fun _ _ s e => (s, e, Ok tt);
     updateVersionVector := fun p v s e =>
       ({| lastSync := lastSync s;
           syncInProgress := syncInProgress s;
           pendingChanges := pendingChanges s;
           versionVector := JsMap.set p v (versionVector s) |}, e, Ok tt) |}.

(** [{id: 'peer-a', getVersionVector: jest.fn().mockRejectedValue(...)}]
    and a peer that answers with an empty vector. *)
Definition peerA : SyncPeer Z :=
  mkSyncPeer "peer-a" (fun e => (e, Throw (Error "Sync error"))).

Definition peerB : SyncPeer Z :=
  mkSyncPeer "peer-b" (fun e => (e, Ok (JObject []))).

Definition idle_world : World Z :=
  mkWorld initialSyncState [] [] 1700000000000.

Definition busy_world : World Z :=
  mkWorld (set_syncInProgress true initialSyncState) [] [] 1700000000000.

End Offline.

(** ** [crypto.createHash('sha256')]

    SHA-256 (FIPS 180-4) over the bytes of a string, with the digest
    printed as 64 lower-case hexadecimal digits. *)

Module SHA256.

Definition w32 (x : Z) : Z := x mod 4294967296.

Definition rotr (n x : Z) : Z :=
  Z.lor (Z.shiftr x n) (w32 (Z.shiftl x (32 - n))).

Definition Ch (x y z : Z) : Z :=
  Z.lxor (Z.land x y) (Z.land (Z.lnot x) z).

Definition Maj (x y z : Z) : Z :=
  Z.lxor (Z.lxor (Z.land x y) (Z.land x z)) (Z.land y z).

Definition Sigma0 (x : Z) : Z := Z.lxor (Z.lxor (rotr 2 x) (rotr 13 x)) (rotr 22 x).
Definition Sigma1 (x : Z) : Z := Z.lxor (Z.lxor (rotr 6 x) (rotr 11 x)) (rotr 25 x).
Definition sigma0 (x : Z) : Z := Z.lxor (Z.lxor (rotr 7 x) (rotr 18 x)) (Z.shiftr x 3).
Definition sigma1 (x : Z) : Z := Z.lxor (Z.lxor (rotr 17 x) (rotr 19 x)) (Z.shiftr x 10).

(** The round constants are the first 32 bits of the fractional parts
    of the cube roots of the first 64 primes; the initial hash value
    comes likewise from the square roots of the first 8. *)
Definition is_prime (n : Z) : bool :=
  forallb (fun d => negb (n mod d =? 0)) (map Z.of_nat (seq 2 (Z.to_nat n - 2))).

Definition primes : list Z :=
  Eval vm_compute in firstn 64 (filter is_prime (map Z.of_nat (seq 2 400))).

(** The largest [x] below [2 ^ i] above the given one with [x ^ 3 <= n]. *)
Fixpoint cube_root (i : nat) (n x : Z) : Z :=
  match i with
  | O => x
  | S i' =>
      let y := x + 2 ^ Z.of_nat i' in
      cube_root i' n (if y * y * y <=? n then y else x)
  end.

Definition K : list Z :=
  Eval vm_compute in map (fun p => w32 (cube_root 36 (p * 2 ^ 96) 0)) primes.

Definition H0_words : list Z :=
  Eval vm_compute in map (fun p => w32 (Z.sqrt (p * 2 ^ 64))) (firstn 8 primes).

Fixpoint bytes_of (s : string) : list Z :=
  match s with
  | EmptyString => []
  | String c rest => Z.of_nat (nat_of_ascii c) :: bytes_of rest
  end.

(** [n] as [k] big-endian bytes. *)
Fixpoint big_endian (k : nat) (n : Z) : list Z :=
  match k with
  | O => []
  | S k' => (Z.shiftr n (8 * Z.of_nat k')) mod 256 :: big_endian k' n
  end.

(** The message, a [1] bit, zeros up to 56 mod 64 bytes, and the bit
    length on 8 bytes. *)
Definition pad (msg : list Z) : list Z :=
  let len := Z.of_nat (length msg) in
  msg ++ [128] ++ repeat 0 (Z.to_nat ((55 - len) mod 64)) ++ big_endian 8 (8 * len).

Fixpoint words_of (fuel : nat) (bs : list Z) : list Z :=
  match fuel, bs with
  | S fuel', b0 :: b1 :: b2 :: b3 :: rest =>
      (((b0 * 256 + b1) * 256 + b2) * 256 + b3) :: words_of fuel' rest
  | _, _ => []
  end.

(** The message schedule: [n] further words after the 16 in [window]. *)
Fixpoint schedule (n : nat) (window : list Z) : list Z :=
  match n with
  | O => []
  | S n' =>
      let w := w32 (sigma1 (nth 14 window 0) + nth 9 window 0
                    + sigma0 (nth 1 window 0) + nth 0 window 0) in
      w :: schedule n' (tl window ++ [w])
  end.

Definition State : Type := (Z * Z * Z * Z * Z * Z * Z * Z)%type.

Definition H0 : State :=
  match H0_words with
  | [a; b; c; d; e; f; g; h] => (a, b, c, d, e, f, g, h)
  | _ => (0, 0, 0, 0, 0, 0, 0, 0)
  end.

Definition round (st : State) (kw : Z * Z) : State :=
  let '(a, b, c, d, e, f, g, h) := st in
  let t1 := h + Sigma1 e + Ch e f g + fst kw + snd kw in
  let t2 := Sigma0 a + Maj a b c in
  (w32 (t1 + t2), a, b, c, w32 (d + t1), e, f, g).

Definition compress (hs : State) (block : list Z) : State :=
  let ws := (block ++ schedule 48 block)%list in
  let '(a, b, c, d, e, f, g, h) := fold_left round (combine K ws) hs in
  let '(a0, b0, c0, d0, e0, f0, g0, h0) := hs in
  (w32 (a0 + a), w32 (b0 + b), w32 (c0 + c), w32 (d0 + d),
   w32 (e0 + e), w32 (f0 + f), w32 (g0 + g), w32 (h0 + h)).

Fixpoint blocks (fuel : nat) (ws : list Z) (hs : State) : State :=
  match fuel, ws with
  | S fuel', _ :: _ => blocks fuel' (skipn 16 ws) (compress hs (firstn 16 ws))
  | _, _ => hs
  end.

Definition hex_digit (n : Z) : ascii :=
  nth (Z.to_nat n)
    ["0"; "1"; "2"; "3"; "4"; "5"; "6"; "7"; "8"; "9"; "a"; "b"; "c"; "d"; "e"; "f"]%char
    "0"%char.

Fixpoint hex_of_bytes (bs : list Z) : string :=
  match bs with
  | [] => EmptyString
  | b :: rest => String (hex_digit (b / 16)) (String (hex_digit (b mod 16)) (hex_of_bytes rest))
  end.

Definition digest (msg : list Z) : list Z :=
  let padded := pad msg in
  let ws := words_of (length padded) padded in
  let '(a, b, c, d, e, f, g, h) := blocks (length ws) ws H0 in
  flat_map (big_endian 4) [a; b; c; d; e; f; g; h].

(** [crypto.createHash('sha256').update(s).digest('hex')] *)
Definition hexdigest (s : string) : string :=
  hex_of_bytes (digest (bytes_of s)).

End SHA256.

(** ** [src/network/p2p.js] *)

Module P2P.

Local Open Scope js_scope.

(** [this.config] (the ICE server list is passed to WebRTC only). *)
Record Config : Type := mkConfig {
  maxRetries : Z;
  retryDelay : Z;
  heartbeatInterval : Z;
  connectionTimeout : Z
}.

Definition defaultConfig : Config :=
  {| maxRetries := 3;
     retryDelay := 1000;
     heartbeatInterval := 30000;
     connectionTimeout := 10000 |}.

(** [this.limits] *)
Record Limits : Type := mkLimits {
  maxPeers : Z;
  maxConnections : Z;
  maxPendingConnections : Z;
  maxMessageSize : Z
}.

Definition defaultLimits : Limits :=
  {| maxPeers := 10;
     maxConnections := 20;
     maxPendingConnections := 5;
     maxMessageSize := 1024 * 1024 |}.

(** The descriptor handed to [addPeer]. *)
Record Peer : Type := mkPeer {
  name : string;
  publicKey : string;
  metadata : JsValue
}.

(** The object [initializeConnection] builds.  It has no [lastActive]
    field until [updateConnectionStatus] writes one. *)
Record Connection : Type := mkConnection {
  id : string;
  peerId : string;
  status : string;
  established : Z;
  lastActive : option Z;
  retries : Z
}.

Definition with_status (st : string) (t : option Z) (c : Connection) : Connection :=
  {| id := id c;
     peerId := peerId c;
     status := st;
     established := established c;
     lastActive := t;
     retries := retries c |}.

Definition with_retries (n : Z) (c : Connection) : Connection :=
  {| id := id c;
     peerId := peerId c;
     status := status c;
     established := established c;
     lastActive := lastActive c;
     retries := n |}.

(** Rows of the [peers] and [connections] tables. *)
Record PeerRow : Type := mkPeerRow {
  row_id : string;
  row_name : string;
  row_publicKey : string;
  row_lastSeen : Z;
  row_trustScore : Q;
  row_status : string;
  row_metadata : string
}.

Record ConnectionRow : Type := mkConnectionRow {
  crow_id : string;
  crow_peerId : string;
  crow_status : string;
  crow_established : Z;
  crow_lastActive : Z;
  crow_metadata : string
}.

Record Database : Type := mkDatabase {
  peers_table : list PeerRow;
  connections_table : list ConnectionRow
}.

Definition emptyDatabase : Database :=
  {| peers_table := []; connections_table := [] |}.

(** [INSERT OR REPLACE INTO peers]: [id] is the primary key, so a row
    with the same id is deleted before the new one is added. *)
Definition insert_or_replace_peer (r : PeerRow) (d : Database) : Database :=
  {| peers_table :=
       filter (fun r' => negb (row_id r' =? row_id r)%string) (peers_table d) ++ [r];
     connections_table := connections_table d |}.

(** [INSERT INTO connections]; the key is a fresh random UUID. *)
Definition insert_connection (r : ConnectionRow) (d : Database) : Database :=
  {| peers_table := peers_table d;
     connections_table := connections_table d ++ [r] |}.

(** [UPDATE connections SET status = ?, lastActive = ? WHERE peerId = ?] *)
Definition update_connection_rows (st : string) (t : Z) (p : string) (d : Database)
  : Database :=
  {| peers_table := peers_table d;
     connections_table :=
       map (fun r =>
              if (crow_peerId r =? p)%string
              then {| crow_id := crow_id r;
                      crow_peerId := crow_peerId r;
                      crow_status := st;
                      crow_established := crow_established r;
                      crow_lastActive := t;
                      crow_metadata := crow_metadata r |}
              else r)
           (connections_table d) |}.

(** [setTimeout(() => { this.establishConnection(peerId) }, delay)] *)
Record Timer : Type := mkTimer {
  delay : Z;
  target : string
}.

Definition PeerLimitExceeded : Exn := Error "Maximum peer limit reached".
Definition ConnectionLimitExceeded : Exn := Error "Maximum connection limit reached".
Definition PeerNotFound : Exn := Error "Peer not found".
Definition InvalidMessageFormat : Exn := Error "Invalid message format".

Section WithEnvironment.

(** Everything outside the class: clock, entropy, the WebRTC stack and
    the wire. *)
Context {E : Type}.

(** Node's [JSON], [Date] and [crypto.randomUUID], and the
    [node-webrtc] peer connection. *)
Class Platform : Type := {
  JSON_stringify : JsValue -> string;
  Date_now : E -> Z;
  randomUUID : E -> E * string;
  createOffer : E -> E * Result JsValue;
  setLocalDescription : JsValue -> E -> E * Result unit;
  setRemoteDescription : JsValue -> E -> E * Result unit
}.

(** The instance of [P2PNetwork] (the fields the methods below touch),
    its logger, the timers it has set, the [initializeConnection] calls
    it has started without awaiting, the sends it has attempted, and
    the outside. *)
Record World : Type := mkWorld {
  peers : JsMap.t Peer;
  connections : JsMap.t Connection;
  db : option Database;
  config : Config;
  limits : Limits;
  log : list LogEntry;
  timers : list Timer;
  detached : list string;
  sent : list (string * JsValue);
  ext : E
}.

Definition set_peers (f : JsMap.t Peer -> JsMap.t Peer) (w : World) : World :=
  {| peers := f (peers w); connections := connections w; db := db w;
     config := config w; limits := limits w; log := log w; timers := timers w;
     detached := detached w; sent := sent w; ext := ext w |}.

Definition set_connections (f : JsMap.t Connection -> JsMap.t Connection) (w : World)
  : World :=
  {| peers := peers w; connections := f (connections w); db := db w;
     config := config w; limits := limits w; log := log w; timers := timers w;
     detached := detached w; sent := sent w; ext := ext w |}.

Definition set_db (d : option Database) (w : World) : World :=
  {| peers := peers w; connections := connections w; db := d;
     config := config w; limits := limits w; log := log w; timers := timers w;
     detached := detached w; sent := sent w; ext := ext w |}.

Definition add_log (l : LogEntry) (w : World) : World :=
  {| peers := peers w; connections := connections w; db := db w;
     config := config w; limits := limits w; log := log w ++ [l]; timers := timers w;
     detached := detached w; sent := sent w; ext := ext w |}.

Definition add_timer (t : Timer) (w : World) : World :=
  {| peers := peers w; connections := connections w; db := db w;
     config := config w; limits := limits w; log := log w; timers := timers w ++ [t];
     detached := detached w; sent := sent w; ext := ext w |}.

Definition add_detached (p : string) (w : World) : World :=
  {| peers := peers w; connections := connections w; db := db w;
     config := config w; limits := limits w; log := log w; timers := timers w;
     detached := detached w ++ [p]; sent := sent w; ext := ext w |}.

Definition add_sent (p : string) (m : JsValue) (w : World) : World :=
  {| peers := peers w; connections := connections w; db := db w;
     config := config w; limits := limits w; log := log w; timers := timers w;
     detached := detached w; sent := sent w ++ [(p, m)]; ext := ext w |}.

Definition set_ext (e : E) (w : World) : World :=
  {| peers := peers w; connections := connections w; db := db w;
     config := config w; limits := limits w; log := log w; timers := timers w;
     detached := detached w; sent := sent w; ext := e |}.

(** The message-type handlers [handleMessage] dispatches to.  The class
    does not define them; [handleICECandidate] and the others may do
    anything to the instance. *)
Class Handlers : Type := {
  handlePeerAnnouncement : JsValue -> M World unit;
  handleResourceUpdate : JsValue -> M World unit;
  handleOffer : JsValue -> M World unit;
  handleAnswer : JsValue -> M World unit;
  handleICECandidate : JsValue -> M World unit
}.

(** Three more methods the class calls on itself and does not define:
    [sendToPeer] (lines 298 and 369), [waitForAnswer] (line 301) and
    [handleConnectionError] (line 308).  Being methods of the instance,
    they too may do anything to it. *)
Class Methods : Type := {
  sendToPeer : string -> JsValue -> M World unit;
  waitForAnswer : string -> M World JsValue;
  handleConnectionError : string -> Exn -> M World unit
}.

(** A call of a method the class does not have: [this.name(...)] with
    [this.name] undefined. *)
Definition not_a_function {A} (name : string) : M World A :=
  throw (TypeError ("this." ++ name ++ " is not a function")).

Definition logger (l : Level) (msg : string) (err : option Exn) : M World unit :=
  modify (add_log (mkLog l msg err)).

(** A call into the outside. *)
Definition outside {A} (f : E -> E * Result A) : M World A :=
  fun w => match f (ext w) with (e, r) => (set_ext e w, r) end.

(** [this.db.prepare(sql).run(...)]; [this.db] is [null] until
    [initialize] has run. *)
Definition db_run (f : Database -> Database) : M World unit :=
  fun w =>
    match db w with
    | None => (w, Throw (TypeError "Cannot read properties of null (reading 'prepare')"))
    | Some d => (set_db (Some (f d)) w, Ok tt)
    end.

(** [for (const [k, v] of map) { body k v }] over a live [Map]: each
    value is read when its turn comes.  The keys visited are those the
    [Map] holds when the loop starts, which is what the loop visits as
    long as its body adds and removes no entry.  The code of the loop
    bodies below does neither; where a body calls a method the class
    lacks, the theorems about the loop say what they assume of it. *)
Definition visit {V} (m : World -> JsMap.t V) (body : string -> V -> M World unit)
  (k : string) : M World unit :=
  v <- gets (fun w => JsMap.get k (m w)) ;;
  match v with
  | Some v => body k v
  | None => ret tt
  end.

Definition forEachEntry {V} (m : World -> JsMap.t V) (body : string -> V -> M World unit)
  : M World unit :=
  ks <- gets (fun w => JsMap.keys (m w)) ;;
  forEach ks (visit m body).

(** [generatePeerId(peer)], lines 347-351. *)
Definition generatePeerId (peer : Peer) : string :=
  SHA256.hexdigest (publicKey peer).

Context {platform : Platform}.

(** [validateMessage(message)], lines 353-358: the value of the [&&]
    chain, which is [message] itself when that is falsy. *)
Definition validateMessage (message : JsValue) : JsValue :=
  if negb (truthy message) then message
  else JBool ((typeof message =? "object")%string
              && (typeof (prop message "type") =? "string")%string
              && negb (is_undefined (prop message "data"))).

(** [updateConnectionStatus(peerId, status)], lines 377-390. *)
Definition updateConnectionStatus (p : string) (st : string) : M World unit :=
  c <- gets (fun w => JsMap.get p (connections w)) ;;
  match c with
  | None => ret tt
  | Some connection =>
      now <- gets (fun w => Date_now (ext w)) ;;
      modify (set_connections (JsMap.set p (with_status st (Some now) connection))) ;;
      db_run (update_connection_rows st now p)
  end.

(** [shouldRetryConnection(peerId)], lines 414-417: the value of
    [connection && connection.retries < this.config.maxRetries]. *)
Definition shouldRetryConnection (p : string) (w : World) : JsValue :=
  match JsMap.get p (connections w) with
  | None => JUndefined
  | Some connection => JBool (retries connection <? maxRetries (config w))
  end.

(** [retryConnection(peerId)], lines 419-427. *)
Definition retryConnection (p : string) : M World unit :=
  c <- gets (fun w => JsMap.get p (connections w)) ;;
  match c with
  | None => ret tt
  | Some connection =>
      let connection' := with_retries (retries connection + 1) connection in
      modify (set_connections (JsMap.set p connection')) ;;
      delay_ms <- gets (fun w => retryDelay (config w) * retries connection') ;;
      modify (add_timer {| delay := delay_ms; target := p |})
  end.

(** Modelled from the spec: [closeConnection(peerId)] is called at lines
    229 and 405 and defined nowhere.  Per the design's retry policy
    "the connection is closed" and, once retries are used up, "remains
    closed": the peer's entry stays in the table with status [closed]. *)
Definition closeConnection (p : string) : M World unit :=
  c <- gets (fun w => JsMap.get p (connections w)) ;;
  match c with
  | None => ret tt
  | Some connection =>
      modify (set_connections (JsMap.set p
        (with_status "closed" (lastActive connection) connection)))
  end.

(** [handleConnectionTimeout(peerId)], lines 403-412. *)
Definition handleConnectionTimeout (p : string) : M World unit :=
  try_catch
    (closeConnection p ;;
     again <- gets (shouldRetryConnection p) ;;
     if truthy again then retryConnection p else ret tt)
    (fun err =>
       logger LError ("Failed to handle connection timeout for peer " ++ p ++ ":")
         (Some err)).

(** Lines 403-412 again, with the method called at line 405 left open:
    [handleConnectionTimeout] above is the case [close := closeConnection]. *)
Definition handleConnectionTimeout_with (close : string -> M World unit) (p : string)
  : M World unit :=
  try_catch
    (close p ;;
     again <- gets (shouldRetryConnection p) ;;
     if truthy again then retryConnection p else ret tt)
    (fun err =>
       logger LError ("Failed to handle connection timeout for peer " ++ p ++ ":")
         (Some err)).

Context {methods : Methods}.

(** [await this.sendToPeer(peerId, message)]; the attempt is recorded
    before the call is made. *)
Definition transmit (p : string) (message : JsValue) : M World unit :=
  modify (add_sent p message) ;;
  sendToPeer p message.

(** The [try] block of [establishConnection], lines 288-305. *)
Definition exchange (p : string) : M World unit :=
  offer <- outside createOffer ;;
  outside (setLocalDescription offer) ;;
  transmit p (JObject [("type", JString "OFFER"); ("data", offer)]) ;;
  answer <- waitForAnswer p ;;
  outside (setRemoteDescription answer) ;;
  updateConnectionStatus p "connected" ;;
  logger LInfo ("Connection established with peer " ++ p) None.

(** [establishConnection(peerId)], lines 281-310. *)
Definition establishConnection (p : string) : M World unit :=
  peer <- gets (fun w => JsMap.get p (peers w)) ;;
  match peer with
  | None => throw PeerNotFound
  | Some _ =>
      try_catch (exchange p)
        (fun err =>
           logger LError ("Failed to establish connection with peer " ++ p ++ ":")
             (Some err) ;;
           handleConnectionError p err)
  end.

(** The object of lines 249-255 and the row of lines 258-269. *)
Definition newConnection (uuid p : string) (now : Z) : Connection :=
  {| id := uuid;
     peerId := p;
     status := "initializing";
     established := now;
     lastActive := None;
     retries := 0 |}.

Definition newConnectionRow (c : Connection) : ConnectionRow :=
  {| crow_id := id c;
     crow_peerId := peerId c;
     crow_status := status c;
     crow_established := established c;
     crow_lastActive := established c;
     crow_metadata := "{}" |}.

(** [initializeConnection(peerId)] up to its [await], lines 244-271. *)
Definition openConnection (p : string) : M World Connection :=
  uuid <- outside (fun e => let (e', u) := randomUUID e in (e', Ok u)) ;;
  now <- gets (fun w => Date_now (ext w)) ;;
  let connection := newConnection uuid p now in
  db_run (insert_connection (newConnectionRow connection)) ;;
  modify (set_connections (JsMap.set p connection)) ;;
  ret connection.

Definition initializeConnection_failed (p : string) (err : Exn) : M World unit :=
  logger LError ("Failed to initialize connection to peer " ++ p ++ ":") (Some err).

(** [await this.initializeConnection(peerId)], lines 243-279.  The value
    returned is the object stored in the table, as it is by then. *)
Definition initializeConnection (p : string) : M World Connection :=
  n <- gets (fun w => JsMap.size (connections w)) ;;
  limit <- gets (fun w => maxConnections (limits w)) ;;
  if n >=? limit then throw ConnectionLimitExceeded
  else
    try_catch
      (connection <- openConnection p ;;
       establishConnection p ;;
       live <- gets (fun w => JsMap.get p (connections w)) ;;
       ret (match live with Some c => c | None => connection end))
      (fun err => initializeConnection_failed p err ;; throw err).

(** [this.initializeConnection(peerId)] without [await], as [addPeer]
    calls it: the body runs up to [await this.establishConnection(...)],
    where it is left pending with the exchange still to come (the
    WebRTC calls return promises); a rejection has no listener and is
    lost. *)
Definition initializeConnection_detached (p : string) : M World unit :=
  n <- gets (fun w => JsMap.size (connections w)) ;;
  limit <- gets (fun w => maxConnections (limits w)) ;;
  if n >=? limit then ret tt
  else
    try_catch
      (openConnection p ;;
       modify (add_detached p))
      (fun err => initializeConnection_failed p err).

(** What a pending [initializeConnection] does when it resumes. *)
Definition resume_detached (p : string) : M World unit :=
  try_catch
    (establishConnection p)
    (fun err => initializeConnection_failed p err).

(** What a timer set by [retryConnection] does when it fires; the
    promise of [establishConnection] is dropped. *)
Definition fire (t : Timer) : M World unit :=
  try_catch (establishConnection (target t)) (fun _ => ret tt).

(** The row of lines 210-218. *)
Definition newPeerRow (p : string) (peer : Peer) (now : Z) : PeerRow :=
  {| row_id := p;
     row_name := name peer;
     row_publicKey := publicKey peer;
     row_lastSeen := now;
     row_trustScore := 1%Q;  (* 1.0, the initial trust score *)
     row_status := "new";
     row_metadata :=
       JSON_stringify (if truthy (metadata peer) then metadata peer else JObject []) |}.

(** [addPeer(peer)], lines 198-224. *)
Definition addPeer (peer : Peer) : M World string :=
  n <- gets (fun w => JsMap.size (peers w)) ;;
  limit <- gets (fun w => maxPeers (limits w)) ;;
  if n >=? limit then throw PeerLimitExceeded
  else
    let p := generatePeerId peer in
    now <- gets (fun w => Date_now (ext w)) ;;
    db_run (insert_or_replace_peer (newPeerRow p peer now)) ;;
    modify (set_peers (JsMap.set p peer)) ;;
    initializeConnection_detached p ;;
    ret p.

(** The loop body of [broadcast], lines 367-373. *)
Definition broadcast_body (message : JsValue) (p : string) (connection : Connection)
  : M World unit :=
  if (status connection =? "connected")%string
  then
    try_catch (transmit p message)
      (fun err =>
         logger LError ("Failed to broadcast to peer " ++ p ++ ":") (Some err))
  else ret tt.

(** [broadcast(message)], lines 365-375. *)
Definition broadcast (message : JsValue) : M World unit :=
  forEachEntry connections (broadcast_body message).

(** The design's wording of a broadcast, for comparison with
    [broadcast]: one send to each of the peers [ps] in turn, a failed
    send reported in the log and otherwise ignored. *)
Definition attempt_send (message : JsValue) (p : string) : M World unit :=
  fun w =>
    match sendToPeer p message (add_sent p message w) with
    | (w', Ok _) => (w', Ok tt)
    | (w', Throw err) =>
        (add_log (mkLog LError ("Failed to broadcast to peer " ++ p ++ ":") (Some err)) w',
         Ok tt)
    end.

Definition send_to_each (message : JsValue) (ps : list string) : M World unit :=
  forEach ps (attempt_send message).

(** [now - connection.lastActive > this.config.connectionTimeout]; with
    [lastActive] undefined the difference is [NaN] and the test fails. *)
Definition stale (now : Z) (timeout : Z) (connection : Connection) : bool :=
  match lastActive connection with
  | Some t => now - t >? timeout
  | None => false
  end.

(** The loop body of [monitorConnections], lines 395-399. *)
Definition monitorConnections_body (now : Z) (p : string) (connection : Connection)
  : M World unit :=
  timeout <- gets (fun w => connectionTimeout (config w)) ;;
  if (status connection =? "connected")%string && stale now timeout connection
  then
    logger LWarn ("Connection to peer " ++ p ++ " timed out") None ;;
    handleConnectionTimeout p
  else ret tt.

(** [monitorConnections()], lines 392-401. *)
Definition monitorConnections : M World unit :=
  now <- gets (fun w => Date_now (ext w)) ;;
  forEachEntry connections (monitorConnections_body now).

(** Lines 392-401 with the method called at line 405 left open. *)
Definition monitorConnections_body_with (close : string -> M World unit) (now : Z)
  (p : string) (connection : Connection) : M World unit :=
  timeout <- gets (fun w => connectionTimeout (config w)) ;;
  if (status connection =? "connected")%string && stale now timeout connection
  then
    logger LWarn ("Connection to peer " ++ p ++ " timed out") None ;;
    handleConnectionTimeout_with close p
  else ret tt.

Definition monitorConnections_with (close : string -> M World unit) : M World unit :=
  now <- gets (fun w => Date_now (ext w)) ;;
  forEachEntry connections (monitorConnections_body_with close now).

Context {handlers : Handlers}.

(** The design's wording of a valid message, for comparison with
    [validateMessage]: "a structured object with a string [type] and a
    present (possibly empty) [data] field"; a field is present when
    reading it does not give [undefined]. *)
Definition well_formed_message (message : JsValue) : bool :=
  match message with
  | JObject fields =>
      match lookup_field "type" fields, lookup_field "data" fields with
      | JString _, JUndefined => false
      | JString _, _ => true
      | _, _ => false
      end
  | _ => false
  end.

(** The [switch] of [handleMessage], lines 321-339. *)
Definition dispatch (message : JsValue) : M World unit :=
  match prop message "type" with
  | JString type =>
      if (type =? "PEER_ANNOUNCE")%string then handlePeerAnnouncement (prop message "data")
      else if (type =? "RESOURCE_UPDATE")%string then handleResourceUpdate (prop message "data")
      else if (type =? "OFFER")%string then handleOffer (prop message "data")
      else if (type =? "ANSWER")%string then handleAnswer (prop message "data")
      else if (type =? "ICE_CANDIDATE")%string then handleICECandidate (prop message "data")
      else logger LWarn ("Unknown message type: " ++ type) None
  | _ =>
      (* not reached: [validateMessage] has checked that the type is a string *)
      logger LWarn "Unknown message type: undefined" None
  end.

(** [handleMessage(message)], lines 313-344. *)
Definition handleMessage (message : JsValue) : M World unit :=
  try_catch
    ((if negb (truthy (validateMessage message))
      then throw InvalidMessageFormat
      else ret tt) ;;
     dispatch message)
    (fun err => logger LError "Error handling message:" (Some err) ;; throw err).

End WithEnvironment.

Arguments Platform E : clear implicits.
Arguments Handlers E : clear implicits.
Arguments Methods E : clear implicits.
Arguments World E : clear implicits.

(** The message handlers own their errors when none of them rejects
    with [InvalidMessageFormat], the error of the validation step. *)
Definition own_errors {E} (h : Handlers E) : Prop :=
  forall (data : JsValue) (w : World E),
    snd (handlePeerAnnouncement data w) <> Throw InvalidMessageFormat
    /\ snd (handleResourceUpdate data w) <> Throw InvalidMessageFormat
    /\ snd (handleOffer data w) <> Throw InvalidMessageFormat
    /\ snd (handleAnswer data w) <> Throw InvalidMessageFormat
    /\ snd (handleICECandidate data w) <> Throw InvalidMessageFormat.


(** The connected peers of a table, in iteration order. *)
Definition is_connected (m : JsMap.t Connection) (p : string) : bool :=
  match JsMap.get p m with
  | Some c => (status c =? "connected")%string
  | None => false
  end.

Definition connected_peers (m : JsMap.t Connection) : list string :=
  filter (is_connected m) (JsMap.keys m).

(** Nothing of the instance itself has changed between [w] and [w']. *)
Definition same_instance {E} (w w' : World E) : Prop :=
  peers w' = peers w
  /\ connections w' = connections w
  /\ db w' = db w
  /\ config w' = config w
  /\ limits w' = limits w
  /\ timers w' = timers w
  /\ detached w' = detached w.

(** A connection once the retry policy has dealt with it. *)
Definition closed (c : Connection) : Connection :=
  with_status "closed" (lastActive c) c.

Definition after_timeout (cfg : Config) (c : Connection) : Connection :=
  if retries c <? maxRetries cfg
  then with_retries (retries c + 1) (closed c)
  else closed c.

Definition retry_timer (cfg : Config) (p : string) (c : Connection) : Timer :=
  {| delay := retryDelay cfg * (retries c + 1); target := p |}.

(** The test of [monitorConnections], lines 395-396, on the entry the
    table [m] holds for [p]. *)
Definition overdue (now : Z) (cfg : Config) (m : JsMap.t Connection) (p : string) : bool :=
  match JsMap.get p m with
  | Some c => (status c =? "connected")%string && stale now (connectionTimeout cfg) c
  | None => false
  end.

(** The two log lines one overdue connection gives rise to in the class
    as the file has it: the warning of line 397 and the error of line
    410, for the call of line 405. *)
Definition timeout_report (p : string) : list LogEntry :=
  [mkLog LWarn ("Connection to peer " ++ p ++ " timed out") None;
   mkLog LError ("Failed to handle connection timeout for peer " ++ p ++ ":")
     (Some (TypeError "this.closeConnection is not a function"))].

Definition add_logs {E} (ls : list LogEntry) (w : World E) : World E :=
  fold_left (fun w l => add_log l w) ls w.

(** During a run of the monitor under configuration [cfg], the peer
    [p], whose connection was [c] at the start, has not been visited
    yet. *)
Definition pending {E} (cfg : Config) (p : string) (c : Connection) (w : World E) : Prop :=
  config w = cfg /\ JsMap.get p (connections w) = Some c.

(** The peer has been dealt with. *)
Definition handled {E} (cfg : Config) (p : string) (c : Connection) (w : World E) : Prop :=
  config w = cfg
  /\ JsMap.get p (connections w) = Some (after_timeout cfg c)
  /\ (retries c < maxRetries cfg -> In (retry_timer cfg p c) (timers w)).

(** *** A concrete outside

    A clock, a counter standing for the random source, and the set of
    peers the wire cannot reach. *)

Record Net : Type := mkNet {
  clock : Z;
  entropy : N;
  unreachable : list string
}.

Definition decimal (n : N) : string :=
  NilEmpty.string_of_uint (N.to_uint n).

Definition reachable (p : string) (e : Net) : bool :=
  negb (existsb (String.eqb p) (unreachable e)).

Definition dquote : string := String (ascii_of_nat 34) EmptyString.

(** [JSON.stringify] on the metadata values used below. *)
Definition stringify (v : JsValue) : string :=
  match v with
  | JObject [] => "{}"
  | JObject [(k, JString x)] =>
      "{" ++ dquote ++ k ++ dquote ++ ":" ++ dquote ++ x ++ dquote ++ "}"
  | _ => "null"
  end.

Definition wire : Platform Net :=
  {| JSON_stringify := stringify;
     Date_now := clock;
     randomUUID := fun e =>
       ({| clock := clock e; entropy := N.succ (entropy e); unreachable := unreachable e |},
        "uuid-" ++ decimal (entropy e));
     createOffer := fun e =>
       (e, Ok (JObject [("type", JString "offer"); ("sdp", JString "v=0")]));
     setLocalDescription := fun _ e => (e, Ok tt);
     setRemoteDescription := fun _ e => (e, Ok tt) |}.

(** The class exactly as the file has it: none of the three methods is
    there. *)
Definition as_shipped {E} : Methods E :=
  {| sendToPeer := fun _ _ => not_a_function "sendToPeer";
     waitForAnswer := fun _ => not_a_function "waitForAnswer";
     handleConnectionError := fun _ _ => not_a_function "handleConnectionError" |}.

(** The class with a transport supplied and nothing else: a send or a
    wait fails for the peers the wire cannot reach. *)
Definition carrier : Methods Net :=
  {| sendToPeer := fun p _ w =>
       (w, if reachable p (ext w) then Ok tt
           else Throw (Error "Data channel is not open"));
     waitForAnswer := fun p w =>
       (w, if reachable p (ext w)
           then Ok (JObject [("type", JString "answer"); ("sdp", JString "v=0")])
           else Throw (Error "Timed out waiting for answer"));
     handleConnectionError := fun _ _ => not_a_function "handleConnectionError" |}.

(** [closeConnection] as the file has it: not there. *)
Definition no_closeConnection {E} (p : string) : M (World E) unit :=
  not_a_function "closeConnection".

(** The handlers exactly as the file has them: not there. *)
Definition no_handler {E} (name : string) : JsValue -> M (World E) unit :=
  fun _ => throw (TypeError ("this." ++ name ++ " is not a function")).

Definition no_handlers {E} : Handlers E :=
  {| handlePeerAnnouncement := no_handler "handlePeerAnnouncement";
     handleResourceUpdate := no_handler "handleResourceUpdate";
     handleOffer := no_handler "handleOffer";
     handleAnswer := no_handler "handleAnswer";
     handleICECandidate := no_handler "handleICECandidate" |}.

(** The instance after [initialize()], at time [t]. *)
Definition fresh_world (t : Z) (down : list string) : World Net :=
  {| peers := JsMap.empty;
     connections := JsMap.empty;
     db := Some emptyDatabase;
     config := defaultConfig;
     limits := defaultLimits;
     log := [];
     timers := [];
     detached := [];
     sent := [];
     ext := {| clock := t; entropy := 0; unreachable := down |} |}.

Definition alice : Peer :=
  {| name := "Alice"; publicKey := "abc123"; metadata := JUndefined |}.

Definition alice_id : string :=
  "6ca13d52ca70c883e0f0bb101e425a89e8624de51db2d2392593af6a84118090".

(** [{name: `Peer${i}`, publicKey: `key-${i}`}] *)
Definition numbered_peer (i : N) : Peer :=
  {| name := "Peer" ++ decimal i; publicKey := "key-" ++ decimal i; metadata := JUndefined |}.

Definition run {S A} (m : M S A) (s : S) : S := fst (m s).

(** [await expect(m).rejects...] or a plain [await m]: run [m] and go
    on whatever its outcome. *)
Definition attempt {S A} (m : M S A) : M S unit :=
  fun s => (fst (m s), Ok tt).

(** Ten peers added to a fresh instance, as in the test "should enforce
    peer limits". *)
Definition full_world : World Net :=
  Eval vm_compute in
  run (forEach (map N.of_nat (seq 0 10))
         (fun i => @addPeer Net wire (numbered_peer i) ;; ret tt))
      (fresh_world 1700000000000 []).

(** Alice is added; her connection is then marked connected and goes
    through one [retryConnection]. *)
Definition alice_world : World Net :=
  Eval vm_compute in
  run (attempt (@addPeer Net wire alice) ;;
       @updateConnectionStatus Net wire alice_id "connected" ;;
       retryConnection alice_id)
      (fresh_world 1700000000000 []).

Definition alice_db : Database :=
  match db alice_world with
  | Some d => d
  | None => emptyDatabase
  end.

(** The same instance [dt] milliseconds later. *)
Definition later (dt : Z) (w : World Net) : World Net :=
  set_ext {| clock := clock (ext w) + dt;
             entropy := entropy (ext w);
             unreachable := unreachable (ext w) |} w.

(** Alice's connection has been silent for the connection timeout and
    one second more, as in the test "should handle connection
    timeouts". *)
Definition silent_world : World Net :=
  later (connectionTimeout defaultConfig + 1000) alice_world.

(** After that, nineteen [initializeConnection] calls are made for ids
    that are not peers: each rejects with "Peer not found" after
    storing its entry. *)
Definition crowded_world : World Net :=
  Eval vm_compute in
  run (forEach (map N.of_nat (seq 1 19))
         (fun i => attempt (@initializeConnection Net wire as_shipped
                             ("ghost-" ++ decimal i))))
      alice_world.

(** Alice is added while the wire cannot reach her. *)
Definition unreachable_world : World Net :=
  Eval vm_compute in
  run (attempt (@addPeer Net wire alice)) (fresh_world 1700000000000 [alice_id]).

(** The invalid message of the test "should validate messages", and a
    valid announcement. *)
Definition message_without_data : JsValue :=
  JObject [("type", JString "TEST")].

Definition announcement : JsValue :=
  JObject [("type", JString "PEER_ANNOUNCE");
           ("data", JObject [("name", JString "Alice"); ("publicKey", JString "abc123")])].

(** Peers 0 to 3 are added while the wire cannot reach peer 1; the
    connections of peers 0, 1 and 2 are then marked connected. *)
Definition quartet_world : World Net :=
  Eval vm_compute in
  run (forEach (map N.of_nat (seq 0 4))
         (fun i => attempt (@addPeer Net wire (numbered_peer i))) ;;
       forEach (map N.of_nat (seq 0 3))
         (fun i => @updateConnectionStatus Net wire
                     (generatePeerId (numbered_peer i)) "connected"))
      (fresh_world 1700000000000
         ["be2974546978e3739e6d6da85c4be9f334ce32df2b9fd4b6ff1b55c0d57e9d44"]).

Definition ping : JsValue :=
  JObject [("type", JString "RESOURCE_UPDATE"); ("data", JObject [])].

(** A connection as [initializeConnection] creates it. *)
Definition fresh_connection (c : Connection) : Prop :=
  status c = "initializing" /\ retries c = 0 /\ lastActive c = None.

End P2P.

(** ** Auxiliary states and scenarios for the supervisor *)

Module P2PStates.

Import P2P.


(** Both tables are within their limits. *)
Definition within_limits {E} (w : World E) : Prop :=
  JsMap.size (peers w) <= maxPeers (limits w)
  /\ JsMap.size (connections w) <= maxConnections (limits w).

(** The five message types [handleMessage] has a case for. *)
Definition known_type (t : string) : bool :=
  existsb (String.eqb t)
    ["PEER_ANNOUNCE"; "RESOURCE_UPDATE"; "OFFER"; "ANSWER"; "ICE_CANDIDATE"].

(** An instance whose database has not been opened, and Alice's
    instance after its database handle is gone. *)
Definition unopened_world : World Net :=
  set_db None (fresh_world 1700000000000 []).

Definition crashed_world : World Net :=
  set_db None unreachable_world.

Definition unreachable_db : Database :=
  match db unreachable_world with
  | Some d => d
  | None => emptyDatabase
  end.

(** A well-formed message of a type the router has no case for. *)
Definition test_message : JsValue :=
  JObject [("type", JString "TEST"); ("data", JObject [])].

Definition alice_connected : Connection :=
  {| id := "uuid-0"; peerId := alice_id; status := "connected";
     established := 1700000000000; lastActive := Some 1700000000000;
     retries := 1 |}.

End P2PStates.


(** ** [removePeer] *)

Module Removal.

Import P2P.

Local Open Scope js_scope.

(** A row of the [resources] table; [updateResourceInfo] writes rows
    without a [peerId]. *)
Record ResourceRow : Type := mkResourceRow {
  rrow_id : string;
  rrow_peerId : option string;
  rrow_cpu : Q;
  rrow_memory : Z;
  rrow_storage : Z;
  rrow_updated : Z
}.

Definition for_peer (p : string) (r : ResourceRow) : bool :=
  match rrow_peerId r with
  | Some q => (q =? p)%string
  | None => false
  end.

(** [DELETE FROM peers WHERE id = ?] and
    [DELETE FROM connections WHERE peerId = ?] *)
Definition delete_peer_rows (p : string) (d : Database) : Database :=
  {| peers_table := filter (fun r => negb (row_id r =? p)%string) (peers_table d);
     connections_table := connections_table d |}.

Definition delete_connection_rows (p : string) (d : Database) : Database :=
  {| peers_table := peers_table d;
     connections_table :=
       filter (fun r => negb (crow_peerId r =? p)%string) (connections_table d) |}.

Section WithEnvironment.

Context {E : Type}.

(** The instance of [P2PNetwork] with the two things [removePeer]
    touches besides: the [resourceInfo] map and the [resources] table
    of the same database. *)
Record Instance : Type := mkInstance {
  net : World E;
  resourceInfo : JsMap.t JsValue;
  resources_table : list ResourceRow
}.

Definition lift {A} (m : M (World E) A) : M Instance A :=
  fun i =>
    match m (net i) with
    | (w, r) =>
        ({| net := w; resourceInfo := resourceInfo i;
            resources_table := resources_table i |}, r)
    end.

(** [DELETE FROM resources WHERE peerId = ?] through [this.db]. *)
Definition delete_resource_rows (p : string) : M Instance unit :=
  fun i =>
    match db (net i) with
    | None => (i, Throw (TypeError "Cannot read properties of null (reading 'prepare')"))
    | Some _ =>
        ({| net := net i; resourceInfo := resourceInfo i;
            resources_table := filter (fun r => negb (for_peer p r)) (resources_table i) |},
         Ok tt)
    end.

Definition forget_resourceInfo (p : string) : M Instance unit :=
  modify (fun i =>
    {| net := net i; resourceInfo := JsMap.delete p (resourceInfo i);
       resources_table := resources_table i |}).

(** Lines 227-230: [closeConnection], which the class calls here and at
    line 405 and does not define, is the parameter [close]. *)
Definition closing_step (close : string -> M Instance unit) (p : string)
  : M Instance unit :=
  connection <- gets (fun i => JsMap.get p (connections (net i))) ;;
  match connection with
  | Some _ => close p
  | None => ret tt
  end.

(** [removePeer(peerId)], lines 226-240. *)
Definition removePeer (close : string -> M Instance unit) (p : string)
  : M Instance unit :=
  closing_step close p ;;
  lift (db_run (delete_peer_rows p)) ;;
  lift (db_run (delete_connection_rows p)) ;;
  delete_resource_rows p ;;
  lift (modify (set_peers (JsMap.delete p))) ;;
  forget_resourceInfo p.

(** [closeConnection] as the file has it: not there. *)
Definition no_closeConnection (p : string) : M Instance unit :=
  throw (TypeError "this.closeConnection is not a function").

(** The instance once [removePeer]'s own deletions have been made in
    it, the database holding [d]. *)
Definition purged (p : string) (d : Database) (i : Instance) : Instance :=
  {| net :=
       set_peers (JsMap.delete p)
         (set_db (Some (delete_connection_rows p (delete_peer_rows p d))) (net i));
     resourceInfo := JsMap.delete p (resourceInfo i);
     resources_table := filter (fun r => negb (for_peer p r)) (resources_table i) |}.

End WithEnvironment.

Arguments Instance E : clear implicits.


(** Alice's instance with a resource report from her, one from Bob and
    a local sample. *)
Definition alice_instance : Instance Net :=
  {| net := alice_world;
     resourceInfo := [(alice_id, JObject [("cpu", JNumber 1)]); ("bob", JObject [])];
     resources_table :=
       [ mkResourceRow "r-1" (Some alice_id) (1#2) 500 0 1700000000000;
         mkResourceRow "r-2" None (1#4) 400 0 1700000000000;
         mkResourceRow "r-3" (Some "bob") (3#4) 300 0 1700000000000 ] |}.


(** An instance whose database has not been opened. *)
Definition unopened_instance : Instance Net :=
  {| net := P2PStates.unopened_world; resourceInfo := []; resources_table := [] |}.

End Removal.

(** ** Resource limits and network state, [src/offline/capabilities.js] *)

Module Monitoring.

Local Open Scope js_scope.

(** The object [getCurrentResourceMetrics()] resolves to, lines
    132-147: [{cpu: {current}, memory: {used}, storage: {used}}].
    The numbers are finite; they are taken as rationals. *)
Record Reading : Type := mkReading {
  storage_used : Q;
  cpu_current : Q;
  memory_used : Q
}.

(** One entry of [this.resourceMetrics]: a bound ([quota] or [limit]),
    which the object may lack, and a level ([used] or [current]). *)
Record Gauge : Type := mkGauge {
  bound : option Q;
  level : Q
}.

Record ResourceMetrics : Type := mkResourceMetrics {
  storage : Gauge;
  cpu : Gauge;
  memory : Gauge
}.

(** The constructor's value, lines 24-37: 1 GB, 75 % and 512 MB. *)
Definition initialResourceMetrics : ResourceMetrics :=
  {| storage := {| bound := Some (inject_Z (1024 * 1024 * 1024)); level := 0 |};
     cpu := {| bound := Some (3 # 4); level := 0 |};
     memory := {| bound := Some (inject_Z (512 * 1024 * 1024)); level := 0 |} |}.

(** [{...this.resourceMetrics, ...metrics}], lines 106-109.  The spread
    is shallow: [metrics] has the keys [storage], [cpu] and [memory],
    so each is taken from [metrics] whole, and the objects of [metrics]
    have a level and no bound. *)
Definition spread (rm : ResourceMetrics) (metrics : Reading) : ResourceMetrics :=
  {| storage := {| bound := None; level := storage_used metrics |};
     cpu := {| bound := None; level := cpu_current metrics |};
     memory := {| bound := None; level := memory_used metrics |} |}.

(** [x > b] and [x >= b] where [b] may be [undefined]: a comparison
    with [undefined] is false. *)
Definition exceeds (x : Q) (b : option Q) : bool :=
  match b with
  | Some b => negb (Qle_bool x b)
  | None => false
  end.

Definition reaches (x : Q) (b : option Q) : bool :=
  match b with
  | Some b => Qle_bool b x
  | None => false
  end.

(** A row of the [resource_metrics] table, whose primary key is the
    timestamp. *)
Record MetricsRow : Type := mkMetricsRow {
  timestamp : Z;
  cpu_usage : Q;
  memory_usage : Q;
  storage_usage : Q;
  network_status : string
}.

(** [INSERT INTO resource_metrics ...]: a second row with the same
    timestamp violates the key. *)
Definition insert_metrics (row : MetricsRow) (rows : list MetricsRow)
  : Result (list MetricsRow) :=
  if existsb (fun r => timestamp r =? timestamp row) rows
  then Throw (Error "UNIQUE constraint failed: resource_metrics.timestamp")
  else Ok (rows ++ [row])%list.

(** The decision of [getNetworkStatus], lines 274-283. *)
Definition overall_status (hasP2PConnections hasInternetConnection : JsValue) : string :=
  if negb (truthy hasInternetConnection) && negb (truthy hasP2PConnections) then "offline"
  else if truthy hasP2PConnections then "p2p-connected"
  else if truthy hasInternetConnection then "online"
  else "degraded".

(** [checkP2PConnections()], lines 287-290: the placeholder. *)
Definition checkP2PConnections : JsValue := JBool false.

Section WithEnvironment.

Context {E : Type}.

(** The clock; the three numbers [getCurrentResourceMetrics] assembles
    ([process.cpuUsage().system / 1000000],
    [process.memoryUsage().heapUsed] and, through
    [calculateStorageUsage], lines 149-153, the size [fs.stat] reports,
    a call that can reject); and [navigator.onLine], a read that
    throws where there is no [navigator]. *)
Class Host : Type := {
  Date_now : E -> Z;
  readMetrics : E -> E * Result Reading;
  navigator_onLine : E -> Result JsValue
}.

(** The fields of [OfflineCapabilities] used here, its logger, and the
    outside. *)
Record Node : Type := mkNode {
  resourceMetrics : ResourceMetrics;
  db : option (list MetricsRow);
  log : list LogEntry;
  ext : E
}.

(** The three handlers [enforceResourceLimits] calls; the class does
    not define them. *)
Class LimitHandlers : Type := {
  handleStorageQuotaExceeded : M Node unit;
  handleCPULimitExceeded : M Node unit;
  handleMemoryLimitExceeded : M Node unit
}.

Definition set_resourceMetrics (rm : ResourceMetrics) (w : Node) : Node :=
  {| resourceMetrics := rm; db := db w; log := log w; ext := ext w |}.

Definition set_rows (rows : list MetricsRow) (w : Node) : Node :=
  {| resourceMetrics := resourceMetrics w; db := Some rows; log := log w; ext := ext w |}.

Definition set_ext (e : E) (w : Node) : Node :=
  {| resourceMetrics := resourceMetrics w; db := db w; log := log w; ext := e |}.

Definition logger (l : Level) (msg : string) (err : option Exn) : M Node unit :=
  modify (fun w =>
    {| resourceMetrics := resourceMetrics w; db := db w;
       log := log w ++ [mkLog l msg err]; ext := ext w |}).

Context {host : Host}.

(** [getCurrentResourceMetrics()], lines 132-147. *)
Definition getCurrentResourceMetrics : M Node Reading :=
  fun w => match readMetrics (ext w) with (e, r) => (set_ext e w, r) end.

(** [checkInternetConnection()], lines 292-294. *)
Definition checkInternetConnection : M Node JsValue :=
  fun w => (w, navigator_onLine (ext w)).

(** [getNetworkStatus()], lines 266-284. *)
Definition getNetworkStatus : M Node string :=
  let hasP2PConnections := checkP2PConnections in
  hasInternetConnection <- checkInternetConnection ;;
  ret (overall_status hasP2PConnections hasInternetConnection).

(** [ensureResourcesAvailable()], lines 326-340. *)
Definition ensureResourcesAvailable : M Node unit :=
  metrics <- getCurrentResourceMetrics ;;
  rm <- gets resourceMetrics ;;
  if reaches (storage_used metrics) (bound (storage rm))
  then throw (Error "STORAGE_FULL")
  else if reaches (cpu_current metrics) (bound (cpu rm))
  then throw (Error "CPU_LIMIT_EXCEEDED")
  else if reaches (memory_used metrics) (bound (memory rm))
  then throw (Error "MEMORY_LIMIT_EXCEEDED")
  else ret tt.

Context {handlers : LimitHandlers}.

(** [enforceResourceLimits(metrics)], lines 155-167. *)
Definition enforceResourceLimits (metrics : Reading) : M Node unit :=
  quota <- gets (fun w => bound (storage (resourceMetrics w))) ;;
  (if exceeds (storage_used metrics) quota then handleStorageQuotaExceeded else ret tt) ;;
  limit <- gets (fun w => bound (cpu (resourceMetrics w))) ;;
  (if exceeds (cpu_current metrics) limit then handleCPULimitExceeded else ret tt) ;;
  limit <- gets (fun w => bound (memory (resourceMetrics w))) ;;
  (if exceeds (memory_used metrics) limit then handleMemoryLimitExceeded else ret tt).

(** [this.db.prepare(...)]: [this.db] is [null] until [initialize] has
    run. *)
Definition db_prepare : M Node (list MetricsRow) :=
  fun w =>
    match db w with
    | None => (w, Throw (TypeError "Cannot read properties of null (reading 'prepare')"))
    | Some rows => (w, Ok rows)
    end.

(** The callback [startResourceMonitoring] hands to [setInterval],
    lines 103-127: one round of the monitor.  The statement is prepared
    before the arguments of [run] are evaluated. *)
Definition monitoring_round : M Node unit :=
  try_catch
    (metrics <- getCurrentResourceMetrics ;;
     modify (fun w => set_resourceMetrics (spread (resourceMetrics w) metrics) w) ;;
     rows <- db_prepare ;;
     now <- gets (fun w => Date_now (ext w)) ;;
     status <- getNetworkStatus ;;
     rows' <- of_result
       (insert_metrics
          {| timestamp := now;
             cpu_usage := cpu_current metrics;
             memory_usage := memory_used metrics;
             storage_usage := storage_used metrics;
             network_status := status |} rows) ;;
     modify (set_rows rows') ;;
     enforceResourceLimits metrics)
    (fun err => logger LError "Resource monitoring error:" (Some err)).

End WithEnvironment.

Arguments Host E : clear implicits.
Arguments Node E : clear implicits.
Arguments LimitHandlers E : clear implicits.

(** Every bound is there. *)
Definition bounded (rm : ResourceMetrics) (q c l : Q) : Prop :=
  bound (storage rm) = Some q /\ bound (cpu rm) = Some c /\ bound (memory rm) = Some l.

(** *** A concrete host

    The outside is the time and the reading the host will give. *)
Record Probe : Type := mkProbe {
  time : Z;
  reading : Reading;
  online : bool
}.

Definition probe_host : Host Probe :=
  {| Date_now := time;
     readMetrics := fun e => (e, Ok (reading e));
     navigator_onLine := fun e => Ok (JBool (online e)) |}.

(** The handlers exactly as the file has them: not there. *)
Definition no_handlers {E} : LimitHandlers E :=
  {| handleStorageQuotaExceeded :=
       throw (TypeError "this.handleStorageQuotaExceeded is not a function");
     handleCPULimitExceeded :=
       throw (TypeError "this.handleCPULimitExceeded is not a function");
     handleMemoryLimitExceeded :=
       throw (TypeError "this.handleMemoryLimitExceeded is not a function") |}.

(** The instance after [initialize()], with a disk that is exactly
    full, and with one that is far beyond full. *)
Definition full_disk : Node Probe :=
  {| resourceMetrics := initialResourceMetrics;
     db := Some [];
     log := [];
     ext := {| time := 1700000000000;
               reading := {| storage_used := inject_Z (1024 * 1024 * 1024);
                             cpu_current := 1 # 10;
                             memory_used := inject_Z 1000 |};
               online := true |} |}.

Definition overfull_disk : Node Probe :=
  {| resourceMetrics := initialResourceMetrics;
     db := Some [];
     log := [];
     ext := {| time := 1700000000000;
               reading := {| storage_used := inject_Z (8 * 1024 * 1024 * 1024);
                             cpu_current := 99 # 100;
                             memory_used := inject_Z (1024 * 1024 * 1024) |};
               online := false |} |}.

End Monitoring.

(** * Properties *)

(** ** Facts about the sequencing operators *)

Module AsyncFacts.

(** A loop whose body never lets an exception escape runs to the end. *)
Lemma forEach_total {S A} (body : A -> M S unit) (xs : list A) :
  (forall x s, snd (body x s) = Ok tt) ->
  forall s, snd (forEach xs body s) = Ok tt.
Proof.
  intros Hbody. induction xs as [|x rest IH]; intros s; simpl.
  - reflexivity.
  - unfold bind. specialize (Hbody x s).
    destruct (body x s) as [s1 r]. simpl in Hbody. subst r. apply IH.
Qed.

(** Unfolding one turn of such a loop. *)
Lemma forEach_cons_total {S A} (body : A -> M S unit) x (rest : list A) s :
  snd (body x s) = Ok tt ->
  forEach (x :: rest) body s = forEach rest body (fst (body x s)).
Proof.
  intros H. simpl. unfold bind.
  destruct (body x s) as [s1 r]. simpl in *. subst r. reflexivity.
Qed.

End AsyncFacts.

(** ** The sync engine *)

Module OfflineSpec.

Import Offline AsyncFacts.

Section Sync.

Context {E : Type} {strategy : SyncStrategy E}.

Lemma contacted_app (xs ys : list Call) :
  contacted (xs ++ ys) = (contacted xs ++ contacted ys)%list.
Proof.
  induction xs as [|c xs IH]; simpl; [reflexivity|].
  destruct c; simpl; rewrite IH; reflexivity.
Qed.

(** The loop body catches everything. *)
Lemma syncWithPeers_body_total (peer : SyncPeer E) (w : World E) :
  snd (syncWithPeers_body peer w) = Ok tt.
Proof.
  unfold syncWithPeers_body, try_catch.
  match goal with |- context [match ?m w with _ => _ end] => destruct (m w) as [w1 [[]|err]] end;
    reflexivity.
Qed.

(** A peer whose [getVersionVector] rejects costs one log line and
    nothing else: no strategy method runs for it. *)
Lemma syncWithPeers_body_rejecting (peer : SyncPeer E) (w : World E) e err :
  getVersionVector peer (ext w) = (e, Throw err) ->
  syncWithPeers_body peer w =
    ({| syncState := syncState w;
        log := log w ++ [mkLog LError ("Failed to sync with peer " ++ id peer ++ ":") (Some err)];
        calls := calls w ++ [CallGetVersionVector (id peer)];
        ext := e |}, Ok tt).
Proof.
  intros Hrej.
  unfold syncWithPeers_body, try_catch, invoke_getVersionVector, record, modify, bind.
  simpl. rewrite Hrej. reflexivity.
Qed.

(** Each turn of the loop contacts its peer, and only its peer. *)
Lemma syncWithPeers_body_contacted (peer : SyncPeer E) (w : World E) :
  contacted (calls (fst (syncWithPeers_body peer w)))
  = (contacted (calls w) ++ [id peer])%list.
Proof.
  unfold syncWithPeers_body, try_catch, invoke_getVersionVector, invoke, record,
    modify, bind, of_result, logger, ret.
  simpl.
  destruct (getVersionVector peer (ext w)) as [e1 [v|err]]; simpl;
    [|rewrite contacted_app; reflexivity].
  destruct (compareVersionVectors v (syncState w) e1) as [[s2 e2] [d|err]]; simpl;
    [|rewrite !contacted_app; simpl; rewrite app_nil_r; reflexivity].
  destruct (prop_strict d "needsUpdate") as [n|err]; simpl;
    [|rewrite !contacted_app; simpl; rewrite app_nil_r; reflexivity].
  destruct (truthy n); simpl.
  - destruct (exchangeChanges peer d s2 e2) as [[s3 e3] [[]|err]]; simpl;
      [|rewrite !contacted_app; simpl; rewrite !app_nil_r; reflexivity].
    destruct (updateVersionVector (id peer) v s3 e3) as [[s4 e4] [[]|err]]; simpl;
      rewrite !contacted_app; simpl; rewrite !app_nil_r; reflexivity.
  - destruct (updateVersionVector (id peer) v s2 e2) as [[s4 e4] [[]|err]]; simpl;
      rewrite !contacted_app; simpl; rewrite !app_nil_r; reflexivity.
Qed.

(** The whole loop: it finishes, and has contacted every peer of the
    list in order. *)
Lemma syncWithPeers_loop (peers : list (SyncPeer E)) :
  forall w : World E,
    snd (forEach peers syncWithPeers_body w) = Ok tt
    /\ contacted (calls (fst (forEach peers syncWithPeers_body w)))
       = (contacted (calls w) ++ map id peers)%list.
Proof.
  induction peers as [|peer rest IH]; intros w.
  - simpl. rewrite app_nil_r. split; reflexivity.
  - rewrite forEach_cons_total by apply syncWithPeers_body_total.
    destruct (IH (fst (syncWithPeers_body peer w))) as [Hok Hcalls].
    split; [exact Hok|].
    rewrite Hcalls, syncWithPeers_body_contacted, <- app_assoc. reflexivity.
Qed.

(** C1.  While [syncState.syncInProgress] is true, [syncWithPeers] is a
    no-op for any peer list: it returns normally, [syncState] (all four
    fields), the record of outgoing calls and the outside are as they
    were, and the only trace is one warning in the log. *)
Theorem syncWithPeers_single_flight (peers : list (SyncPeer E)) (w : World E) :
  syncInProgress (syncState w) = true ->
  snd (syncWithPeers peers w) = Ok tt
  /\ syncState (fst (syncWithPeers peers w)) = syncState w
  /\ calls (fst (syncWithPeers peers w)) = calls w
  /\ ext (fst (syncWithPeers peers w)) = ext w
  /\ log (fst (syncWithPeers peers w))
     = (log w ++ [mkLog LWarn "Sync already in progress" None])%list.
Proof.
  intros Hbusy.
  unfold syncWithPeers, bind, gets. rewrite Hbusy. simpl.
  repeat split; reflexivity.
Qed.

Lemma syncWithPeers_unfold (peers : list (SyncPeer E)) (w : World E) :
  syncInProgress (syncState w) = false ->
  syncWithPeers peers w =
    try_finally
      (try_catch
         (bind (modify (with_syncState (set_syncInProgress true))) (fun _ =>
          bind (gets (fun w => Date_now (ext w))) (fun now =>
          bind (modify (with_syncState (set_lastSync now))) (fun _ =>
          bind (invoke CallGetLocalChanges getLocalChanges) (fun _ =>
          forEach peers syncWithPeers_body)))))
         (fun err => bind (logger LError "Sync failed:" (Some err)) (fun _ => throw err)))
      (modify (with_syncState (set_syncInProgress false))) w.
Proof.
  intros Hidle. unfold syncWithPeers at 1, bind at 1, gets at 1.
  rewrite Hidle. reflexivity.
Qed.

(** The turn of a peer that answers, when no strategy method fails on
    the way to [updateVersionVector]. *)
Lemma syncWithPeers_body_answering (peer : SyncPeer E) (w : World E)
  e1 v s2 e2 diff n s3 e3 s4 e4 r4 :
  getVersionVector peer (ext w) = (e1, Ok v) ->
  compareVersionVectors v (syncState w) e1 = (s2, e2, Ok diff) ->
  prop_strict diff "needsUpdate" = Ok n ->
  (if truthy n then exchangeChanges peer diff s2 e2 else (s2, e2, Ok tt))
  = (s3, e3, Ok tt) ->
  updateVersionVector (id peer) v s3 e3 = (s4, e4, r4) ->
  syncWithPeers_body peer w =
    ({| syncState := s4;
        log := log w ++
          match r4 with
          | Ok _ => []
          | Throw err =>
              [mkLog LError ("Failed to sync with peer " ++ id peer ++ ":") (Some err)]
          end;
        calls := calls w ++
          [CallGetVersionVector (id peer); CallCompareVersionVectors (id peer)] ++
          (if truthy n then [CallExchangeChanges (id peer)] else []) ++
          [CallUpdateVersionVector (id peer)];
        ext := e4 |}, Ok tt).
Proof.
  intros Hanswer Hcompare Hneeds Hexchange Hupdate.
  unfold syncWithPeers_body, try_catch, bind at 1, invoke_getVersionVector,
    bind at 1, record, modify. cbn [syncState log calls ext]. rewrite Hanswer.
  unfold bind at 1, invoke at 1, bind at 1, record, modify.
  cbn [syncState log calls ext]. rewrite Hcompare.
  unfold bind at 1, of_result. rewrite Hneeds.
  unfold bind at 1.
  destruct (truthy n).
  - unfold invoke at 1, bind at 1, record, modify. cbn [syncState log calls ext].
    rewrite Hexchange.
    unfold invoke, bind, record, modify. cbn [syncState log calls ext].
    rewrite Hupdate.
    destruct r4 as [[]|err]; unfold logger, modify; cbn [syncState log calls ext];
      rewrite <- ?app_assoc, ?app_nil_r; reflexivity.
  - unfold ret. injection Hexchange as Hs He. subst s3 e3.
    unfold invoke, bind, record, modify. cbn [syncState log calls ext].
    rewrite Hupdate.
    destruct r4 as [[]|err]; unfold logger, modify; cbn [syncState log calls ext];
      rewrite <- ?app_assoc, ?app_nil_r; reflexivity.
Qed.

(** The loop runs the peers' turns one after the other, each from the
    state the previous one left, whatever the outcome of that one. *)
Lemma syncWithPeers_turns (peers : list (SyncPeer E)) :
  forall w : World E,
    forEach peers syncWithPeers_body w
    = (fold_left (fun w1 peer => fst (syncWithPeers_body peer w1)) peers w, Ok tt).
Proof.
  induction peers as [|peer rest IH]; intros w; [reflexivity|].
  simpl forEach. unfold bind.
  pose proof (syncWithPeers_body_total peer w) as Hok.
  destruct (syncWithPeers_body peer w) as [w1 r] eqn:Hturn. simpl in Hok. subst r.
  rewrite IH. simpl fold_left. rewrite Hturn. reflexivity.
Qed.

(** C2.  A pass started with the flag down: (1) ends with
    [syncInProgress] false whether it returns or throws; (2) once
    [getLocalChanges] has resolved, returns normally having called
    [getVersionVector] on every peer of the list, in order, whatever any
    of them answered, and its final state is that of the peers' turns
    run one after the other from the state [getLocalChanges] left, each
    turn whatever the previous ones did, with the flag released at the
    end; (3) when [getLocalChanges] rejects, rethrows that error (the
    flag is still released by (1)); (4) a peer whose [getVersionVector]
    rejects is skipped: its turn logs the error and changes nothing in
    [syncState]; (5) a peer that answers with [v] is processed: its
    turn calls [compareVersionVectors(v)], then [exchangeChanges] if
    and only if the difference has a truthy [needsUpdate], then
    [updateVersionVector(id, v)], each on the state the call before
    left, and ends in the state [updateVersionVector] leaves. *)
Theorem syncWithPeers_peer_isolation (peers : list (SyncPeer E)) (w : World E) :
  syncInProgress (syncState w) = false ->
  let started :=
    set_lastSync (Date_now (ext w)) (set_syncInProgress true (syncState w)) in
  syncInProgress (syncState (fst (syncWithPeers peers w))) = false
  /\ (forall s e changes,
        getLocalChanges started (ext w) = (s, e, Ok changes) ->
        snd (syncWithPeers peers w) = Ok tt
        /\ contacted (calls (fst (syncWithPeers peers w)))
           = (contacted (calls w) ++ map id peers)%list
        /\ fst (syncWithPeers peers w)
           = with_syncState (set_syncInProgress false)
               (fold_left (fun w1 peer => fst (syncWithPeers_body peer w1)) peers
                  (loop_entry w s e)))
  /\ (forall s e err,
        getLocalChanges started (ext w) = (s, e, Throw err) ->
        snd (syncWithPeers peers w) = Throw err)
  /\ (forall (peer : SyncPeer E) (w1 : World E) e err,
        getVersionVector peer (ext w1) = (e, Throw err) ->
        syncWithPeers_body peer w1 =
          ({| syncState := syncState w1;
              log := log w1 ++
                [mkLog LError ("Failed to sync with peer " ++ id peer ++ ":") (Some err)];
              calls := calls w1 ++ [CallGetVersionVector (id peer)];
              ext := e |}, Ok tt))
  /\ (forall (peer : SyncPeer E) (w1 : World E) e1 v s2 e2 diff n s3 e3 s4 e4 r4,
        getVersionVector peer (ext w1) = (e1, Ok v) ->
        compareVersionVectors v (syncState w1) e1 = (s2, e2, Ok diff) ->
        prop_strict diff "needsUpdate" = Ok n ->
        (if truthy n then exchangeChanges peer diff s2 e2 else (s2, e2, Ok tt))
        = (s3, e3, Ok tt) ->
        updateVersionVector (id peer) v s3 e3 = (s4, e4, r4) ->
        syncWithPeers_body peer w1 =
          ({| syncState := s4;
              log := log w1 ++
                match r4 with
                | Ok _ => []
                | Throw err =>
                    [mkLog LError ("Failed to sync with peer " ++ id peer ++ ":")
                       (Some err)]
                end;
              calls := calls w1 ++
                [CallGetVersionVector (id peer); CallCompareVersionVectors (id peer)] ++
                (if truthy n then [CallExchangeChanges (id peer)] else []) ++
                [CallUpdateVersionVector (id peer)];
              ext := e4 |}, Ok tt)).
Proof.
  intros Hidle started.
  rewrite (syncWithPeers_unfold peers w Hidle).
  split; [|split; [|split; [|split]]].
  - unfold try_finally.
    match goal with |- context [match ?m w with _ => _ end] => destruct (m w) as [w1 r] end.
    reflexivity.
  - intros s e changes Hlocal.
    unfold try_finally, try_catch, bind at 1 2 3 4, modify at 1 2, gets, invoke,
      record, bind, modify at 1.
    simpl. fold started. rewrite Hlocal.
    destruct (syncWithPeers_loop peers (loop_entry w s e)) as [Hok Hcalls].
    pose proof (syncWithPeers_turns peers (loop_entry w s e)) as Hturns.
    unfold loop_entry in Hok, Hcalls, Hturns |- *.
    destruct (forEach peers syncWithPeers_body _) as [w2 r2] eqn:Hloop.
    simpl in Hok, Hcalls. subst r2. simpl. split; [reflexivity|].
    split.
    + rewrite Hcalls, contacted_app. simpl. rewrite app_nil_r. reflexivity.
    + injection Hturns as Hw2. rewrite <- Hw2. reflexivity.
  - intros s e err Hlocal.
    unfold try_finally, try_catch, bind at 1 2 3 4, modify at 1 2, gets, invoke,
      record, bind, modify at 1.
    simpl. fold started. rewrite Hlocal. reflexivity.
  - intros peer w1 e err Hrej. apply syncWithPeers_body_rejecting. exact Hrej.
  - intros peer w1 e1 v s2 e2 diff n s3 e3 s4 e4 r4.
    apply syncWithPeers_body_answering.
Qed.

End Sync.

(** C1 at [busy_world], with the strategy methods missing as in the
    file. *)
Lemma syncWithPeers_single_flight_witness :
  syncInProgress (syncState busy_world) = true
  /\ snd (@syncWithPeers Z as_shipped [peerA; peerB] busy_world) = Ok tt
  /\ syncState (fst (@syncWithPeers Z as_shipped [peerA; peerB] busy_world))
     = syncState busy_world.
Proof.
  split; [reflexivity|].
  destruct (@syncWithPeers_single_flight Z as_shipped [peerA; peerB] busy_world)
    as (Hret & Hstate & _); [reflexivity|].
  split; assumption.
Defined.

(** C2 at [[peerA; peerB]], where [peerA] rejects: [peerB] is still
    asked, compared and recorded in the version vector. *)
Lemma syncWithPeers_peer_isolation_witness :
  syncInProgress (syncState idle_world) = false
  /\ syncInProgress (syncState (fst (@syncWithPeers Z stubbed [peerA; peerB] idle_world)))
     = false
  /\ contacted (calls (fst (@syncWithPeers Z stubbed [peerA; peerB] idle_world)))
     = ["peer-a"; "peer-b"]
  /\ calls (fst (@syncWithPeers Z stubbed [peerA; peerB] idle_world))
     = [CallGetLocalChanges;
        CallGetVersionVector "peer-a";
        CallGetVersionVector "peer-b";
        CallCompareVersionVectors "peer-b";
        CallUpdateVersionVector "peer-b"]
  /\ JsMap.keys (versionVector (syncState
        (fst (@syncWithPeers Z stubbed [peerA; peerB] idle_world))))
     = ["peer-b"].
Proof.
  split; [reflexivity|].
  destruct (@syncWithPeers_peer_isolation Z stubbed [peerA; peerB] idle_world)
    as (Hflag & Hloop & _); [reflexivity|].
  split; [exact Hflag|].
  destruct (Hloop (set_lastSync 1700000000000 (set_syncInProgress true initialSyncState))
              1700000000000 (JArray [])) as (_ & Hcalls & Hstate); [reflexivity|].
  split; [exact Hcalls|].
  rewrite Hstate. vm_compute.
  split; reflexivity.
Defined.

(** With the strategy methods missing, the pass throws at
    [getLocalChanges]; the flag is released all the same. *)
Example syncWithPeers_as_shipped :
  let '(w, r) := @syncWithPeers Z as_shipped [peerA; peerB] idle_world in
  r = Throw (TypeError "this.getLocalChanges is not a function")
  /\ syncInProgress (syncState w) = false
  /\ contacted (calls w) = [].
Proof. vm_compute. repeat split; reflexivity. Qed.

Example sync_demo :
  let w := fst (@syncWithPeers Z stubbed [peerA; peerB] idle_world) in
  (contacted (calls w), syncInProgress (syncState w), JsMap.keys (versionVector (syncState w)))
  = (["peer-a"; "peer-b"], false, ["peer-b"]).
Proof. vm_compute. reflexivity. Qed.

End OfflineSpec.

Module SHA256Tests.

Example sha256_abc :
  SHA256.hexdigest "abc"
  = "ba7816bf8f01cfea414140de5dae2223b00361a396177a9cb410ff61f20015ad".
Proof. vm_compute. reflexivity. Qed.

Example sha256_empty :
  SHA256.hexdigest ""
  = "e3b0c44298fc1c149afbf4c8996fb92427ae41e4649b934ca495991b7852b855".
Proof. vm_compute. reflexivity. Qed.

Example sha256_two_blocks :
  SHA256.hexdigest
    "kkkkkkkkkkkkkkkkkkkkkkkkkkkkkkkkkkkkkkkkkkkkkkkkkkkkkkkkkkkkkkkkkkkkkk"
  = "5c6ced41eb6f5564254b35c889a38b89d1d16008bdf351fd216967010e442daf".
Proof. vm_compute. reflexivity. Qed.

End SHA256Tests.

(** ** Facts about [Map] *)

Module JsMapFacts.

Import JsMap.

Section Facts.

Context {V : Type}.

Lemma get_set_same (k : string) (v : V) (m : t V) :
  get k (set k v m) = Some v.
Proof.
  induction m as [|[k' v'] rest IH]; simpl.
  - rewrite String.eqb_refl. reflexivity.
  - destruct (k =? k')%string eqn:Hk; simpl; rewrite Hk; [reflexivity | exact IH].
Qed.

Lemma get_set_other (k q : string) (v : V) (m : t V) :
  q <> k -> get q (set k v m) = get q m.
Proof.
  intros Hneq. induction m as [|[k' v'] rest IH]; simpl.
  - apply String.eqb_neq in Hneq. rewrite Hneq. reflexivity.
  - destruct (k =? k')%string eqn:Hk; simpl.
    + apply String.eqb_eq in Hk. subst k'.
      apply String.eqb_neq in Hneq. rewrite Hneq. reflexivity.
    + rewrite IH. reflexivity.
Qed.

(** Overwriting a key neither moves it nor adds an entry. *)
Lemma keys_set_present (k : string) (v v0 : V) (m : t V) :
  get k m = Some v0 -> keys (set k v m) = keys m.
Proof.
  revert v0. unfold keys.
  induction m as [|[k' v'] rest IH]; intros v0; simpl; [discriminate|].
  destruct (k =? k')%string eqn:Hk; simpl; [reflexivity|].
  intros Hget. f_equal. apply (IH _ Hget).
Qed.

Lemma size_set_present (k : string) (v v0 : V) (m : t V) :
  get k m = Some v0 -> size (set k v m) = size m.
Proof.
  intros Hget. unfold size.
  rewrite <- (length_map fst (set k v m)), <- (length_map fst m).
  change (map fst (set k v m)) with (keys (set k v m)).
  rewrite (keys_set_present k v v0 m Hget). reflexivity.
Qed.

Lemma set_absent (k : string) (v : V) (m : t V) :
  get k m = None -> set k v m = (m ++ [(k, v)])%list.
Proof.
  induction m as [|[k' v'] rest IH]; simpl; [reflexivity|].
  destruct (k =? k')%string; [discriminate|].
  intros Hget. rewrite (IH Hget). reflexivity.
Qed.

Lemma size_set_absent (k : string) (v : V) (m : t V) :
  get k m = None -> size (set k v m) = (size m + 1)%Z.
Proof.
  intros Hget. rewrite (set_absent k v m Hget). unfold size.
  rewrite length_app. simpl. lia.
Qed.

(** [set] adds at most one entry and removes none. *)
Lemma size_set_bounds (k : string) (v : V) (m : t V) :
  (size m <= size (set k v m) <= size m + 1)%Z.
Proof.
  destruct (get k m) as [v0|] eqn:Hget.
  - rewrite (size_set_present k v v0 m Hget). lia.
  - rewrite (size_set_absent k v m Hget). lia.
Qed.

Lemma set_set (k : string) (v v' : V) (m : t V) :
  set k v' (set k v m) = set k v' m.
Proof.
  induction m as [|[k' v0] rest IH]; simpl.
  - rewrite String.eqb_refl. reflexivity.
  - destruct (k =? k')%string eqn:Hk; simpl; rewrite Hk; [reflexivity|].
    rewrite IH. reflexivity.
Qed.

Lemma get_in_keys (k : string) (v : V) (m : t V) :
  get k m = Some v -> In k (keys m).
Proof.
  induction m as [|[k' v'] rest IH]; simpl; [discriminate|].
  destruct (k =? k')%string eqn:Hk.
  - apply String.eqb_eq in Hk. left. symmetry. exact Hk.
  - intros Hget. right. apply IH. exact Hget.
Qed.

End Facts.

End JsMapFacts.

(** ** The peer network *)

Module P2PSpec.

Import P2P AsyncFacts JsMapFacts.

Section Network.

Context {E : Type} {platform : Platform E} {methods : Methods E}.

(** *** Adding peers *)

(** The un-awaited [initializeConnection] never fails its caller. *)
Lemma initializeConnection_detached_total (p : string) (w : World E) :
  snd (initializeConnection_detached p w) = Ok tt.
Proof.
  unfold initializeConnection_detached, bind, gets. simpl.
  destruct (JsMap.size (connections w) >=? maxConnections (limits w)); [reflexivity|].
  unfold try_catch.
  match goal with |- context [match ?m w with _ => _ end] => destruct (m w) as [w1 [[]|err]] end;
    reflexivity.
Qed.

(** The outcome of [addPeer] in full. *)
Lemma addPeer_outcome (peer : Peer) (w : World E) :
  snd (addPeer peer w) =
    if JsMap.size (peers w) >=? maxPeers (limits w) then Throw PeerLimitExceeded
    else match db w with
         | None => Throw (TypeError "Cannot read properties of null (reading 'prepare')")
         | Some _ => Ok (SHA256.hexdigest (publicKey peer))
         end.
Proof.
  unfold addPeer, bind at 1 2, gets at 1 2. simpl.
  destruct (JsMap.size (peers w) >=? maxPeers (limits w)); [reflexivity|].
  unfold bind at 1, gets at 1. simpl.
  unfold bind at 1, db_run at 1.
  destruct (db w) as [d|]; [|reflexivity].
  unfold bind at 1, modify at 1.
  unfold bind at 1.
  match goal with
  | |- context [initializeConnection_detached ?p ?w1] =>
      pose proof (initializeConnection_detached_total p w1) as Htotal;
      destruct (initializeConnection_detached p w1) as [w2 r]
  end.
  simpl in Htotal. subst r. reflexivity.
Qed.

(** C4.  Once the number of known peers has reached [limits.maxPeers],
    [addPeer] rejects with "Maximum peer limit reached" and changes
    nothing: the directory, the database, the connection table and
    everything else are as before. *)
Theorem addPeer_at_limit (peer : Peer) (w : World E) :
  maxPeers (limits w) <= JsMap.size (peers w) ->
  addPeer peer w = (w, Throw PeerLimitExceeded).
Proof.
  intros Hfull. unfold addPeer, bind, gets. simpl.
  destruct (JsMap.size (peers w) >=? maxPeers (limits w)) eqn:Hge; [reflexivity|].
  rewrite Z.geb_leb in Hge. apply Z.leb_gt in Hge. lia.
Qed.

(** C3.  The id [addPeer] returns is the SHA-256 hex digest of the
    descriptor's [publicKey]: [addPeer] returns exactly when the
    directory is below its limit and the database is open, the value
    is that digest, and so two calls that return, on descriptors with
    the same key and in whichever states, return the same id. *)
Theorem addPeer_id_is_sha256 (peer : Peer) (w : World E) (p : string) :
  snd (addPeer peer w) = Ok p ->
  p = SHA256.hexdigest (publicKey peer)
  /\ p = generatePeerId peer
  /\ JsMap.size (peers w) < maxPeers (limits w)
  /\ db w <> None
  /\ (forall (peer' : Peer) (w' : World E) (p' : string),
        publicKey peer' = publicKey peer ->
        snd (addPeer peer' w') = Ok p' ->
        p' = p).
Proof.
  rewrite addPeer_outcome.
  destruct (JsMap.size (peers w) >=? maxPeers (limits w)) eqn:Hge; [discriminate|].
  destruct (db w) as [d|]; [|discriminate].
  intros Hp. injection Hp as Hp. subst p.
  rewrite Z.geb_leb in Hge. apply Z.leb_gt in Hge.
  repeat split; try assumption; try discriminate.
  intros peer' w' p' Hkey. rewrite addPeer_outcome.
  destruct (JsMap.size (peers w') >=? maxPeers (limits w')); [discriminate|].
  destruct (db w') as [d'|]; [|discriminate].
  intros Hp'. injection Hp' as Hp'. subst p'. rewrite Hkey. reflexivity.
Qed.

Lemma filter_own_row (r : PeerRow) (rows : list PeerRow) :
  filter (fun r' => (row_id r' =? row_id r)%string)
    (filter (fun r' => negb (row_id r' =? row_id r)%string) rows ++ [r])
  = [r].
Proof.
  rewrite filter_app. simpl. rewrite String.eqb_refl.
  replace (filter _ (filter _ rows)) with (@nil PeerRow); [reflexivity|].
  symmetry. induction rows as [|r0 rows IH]; simpl; [reflexivity|].
  destruct (row_id r0 =? row_id r)%string eqn:Hid; simpl; [exact IH|].
  rewrite Hid. exact IH.
Qed.

(** The state [addPeer] leaves when it goes through: the row and the
    directory entry are written, and then either the connection table
    is full and nothing more happens, or a connection is opened and
    its establishment left pending. *)
Lemma addPeer_state (peer : Peer) (w : World E) (d : Database) :
  JsMap.size (peers w) < maxPeers (limits w) ->
  db w = Some d ->
  let p := generatePeerId peer in
  let d1 := insert_or_replace_peer (newPeerRow p peer (Date_now (ext w))) d in
  let w1 := set_peers (JsMap.set p peer) (set_db (Some d1) w) in
  fst (addPeer peer w) =
    if JsMap.size (connections w) >=? maxConnections (limits w) then w1
    else
      let e := fst (randomUUID (ext w)) in
      let c := newConnection (snd (randomUUID (ext w))) p (Date_now e) in
      add_detached p
        (set_connections (JsMap.set p c)
           (set_db (Some (insert_connection (newConnectionRow c) d1))
              (set_ext e w1))).
Proof.
  intros Hroom Hdb p d1 w1.
  unfold addPeer, bind at 1 2, gets at 1 2. simpl.
  destruct (JsMap.size (peers w) >=? maxPeers (limits w)) eqn:Hge.
  { rewrite Z.geb_leb in Hge. apply Z.leb_le in Hge. lia. }
  unfold bind at 1, gets at 1. simpl.
  unfold bind at 1, db_run at 1. rewrite Hdb.
  unfold bind at 1, modify at 1.
  fold p. fold d1. fold w1.
  unfold bind at 1, initializeConnection_detached, bind at 1 2, gets at 1 2. simpl.
  destruct (JsMap.size (connections w) >=? maxConnections (limits w)); [reflexivity|].
  unfold try_catch, openConnection, bind, outside, gets, db_run, modify, ret. simpl.
  destruct (randomUUID (ext w)) as [e uuid]. simpl. reflexivity.
Qed.

(** C10 (as amended).  Re-adding a registered peer below the peer limit,
    with the database open: [addPeer] returns the same id; the number
    of known peers is unchanged and the directory entry is the new
    descriptor; the [peers] table holds exactly one row for the id, the
    new one, with trust score 1.0 and status [new]; and, when the
    connection table is below [limits.maxConnections], the peer's entry
    there is a new connection ([initializing], no retries) whose
    establishment is pending, whereas at the connection limit the
    table and the pending list are left as they were. *)
Theorem addPeer_again (peer old : Peer) (w : World E) (d : Database) :
  JsMap.get (generatePeerId peer) (peers w) = Some old ->
  JsMap.size (peers w) < maxPeers (limits w) ->
  db w = Some d ->
  let p := generatePeerId peer in
  let row := newPeerRow p peer (Date_now (ext w)) in
  let w' := fst (addPeer peer w) in
  snd (addPeer peer w) = Ok p
  /\ JsMap.size (peers w') = JsMap.size (peers w)
  /\ JsMap.get p (peers w') = Some peer
  /\ (exists d',
        db w' = Some d'
        /\ filter (fun r => (row_id r =? p)%string) (peers_table d') = [row])
  /\ row_trustScore row = 1%Q
  /\ row_status row = "new"
  /\ (JsMap.size (connections w) < maxConnections (limits w) ->
        JsMap.get p (connections w')
        = Some (newConnection (snd (randomUUID (ext w))) p
                  (Date_now (fst (randomUUID (ext w)))))
        /\ detached w' = (detached w ++ [p])%list)
  /\ (maxConnections (limits w) <= JsMap.size (connections w) ->
        connections w' = connections w /\ detached w' = detached w).
Proof.
  intros Hknown Hroom Hdb p row w'.
  assert (Hret : snd (addPeer peer w) = Ok p).
  { rewrite addPeer_outcome, Hdb.
    destruct (JsMap.size (peers w) >=? maxPeers (limits w)) eqn:Hge; [|reflexivity].
    rewrite Z.geb_leb in Hge. apply Z.leb_le in Hge. lia. }
  pose proof (addPeer_state peer w d Hroom Hdb) as Hstate.
  cbv zeta in Hstate. fold p in Hstate. fold row in Hstate. fold w' in Hstate.
  split; [exact Hret|].
  destruct (JsMap.size (connections w) >=? maxConnections (limits w)) eqn:Hconn;
    rewrite Hstate; simpl.
  - rewrite Z.geb_leb in Hconn. apply Z.leb_le in Hconn.
    split; [apply (size_set_present _ _ old); exact Hknown|].
    split; [apply get_set_same|].
    split; [eexists; split; [reflexivity | apply (filter_own_row row)]|].
    split; [reflexivity|]. split; [reflexivity|].
    split; [intros Hlt; lia|]. intros _. split; reflexivity.
  - rewrite Z.geb_leb in Hconn. apply Z.leb_gt in Hconn.
    split; [apply (size_set_present _ _ old); exact Hknown|].
    split; [apply get_set_same|].
    split; [eexists; split; [reflexivity | apply (filter_own_row row)]|].
    split; [reflexivity|]. split; [reflexivity|].
    split.
    + intros _. split; [apply get_set_same | reflexivity].
    + intros Hfull. lia.
Qed.

(** *** Broadcast *)

(** One turn of the loop: the status is read when the turn comes, and a
    connected peer gets one attempt. *)
Lemma broadcast_turn (message : JsValue) (k : string) (w : World E) :
  visit connections (broadcast_body message) k w
  = if is_connected (connections w) k then attempt_send message k w else (w, Ok tt).
Proof.
  unfold visit, bind, gets, is_connected. cbv beta iota.
  destruct (JsMap.get k (connections w)) as [c|]; [|reflexivity].
  unfold broadcast_body.
  destruct (status c =? "connected")%string; [|reflexivity].
  unfold try_catch, attempt_send, transmit, bind, modify, logger, modify.
  destruct (sendToPeer k message (add_sent k message w)) as [w1 [[]|err]]; reflexivity.
Qed.

Lemma attempt_send_total (message : JsValue) (p : string) (w : World E) :
  snd (attempt_send message p w) = Ok tt.
Proof.
  unfold attempt_send.
  destruct (sendToPeer p message (add_sent p message w)) as [w1 [[]|err]]; reflexivity.
Qed.

Lemma send_to_each_total (message : JsValue) (ps : list string) (w : World E) :
  snd (send_to_each message ps w) = Ok tt.
Proof.
  unfold send_to_each. apply forEach_total. intros p s. apply attempt_send_total.
Qed.

Section Framed.

(** [sendToPeer] leaves the connection table as it is. *)
Hypothesis sendToPeer_frame :
  forall p m (w : World E), connections (fst (sendToPeer p m w)) = connections w.

Lemma attempt_send_frame (message : JsValue) (p : string) (w : World E) :
  connections (fst (attempt_send message p w)) = connections w.
Proof.
  unfold attempt_send.
  pose proof (sendToPeer_frame p message (add_sent p message w)) as Hframe.
  destruct (sendToPeer p message (add_sent p message w)) as [w1 [[]|err]];
    simpl in *; exact Hframe.
Qed.

Lemma broadcast_loop (message : JsValue) (m : JsMap.t Connection) (ks : list string) :
  forall w : World E,
    connections w = m ->
    forEach ks (visit connections (broadcast_body message)) w
    = send_to_each message (filter (is_connected m) ks) w.
Proof.
  induction ks as [|k rest IH]; intros w Hm; [reflexivity|].
  simpl forEach. unfold bind at 1. rewrite broadcast_turn. rewrite Hm.
  simpl filter. destruct (is_connected m k).
  - unfold send_to_each. simpl forEach. unfold bind.
    pose proof (attempt_send_total message k w) as Hok.
    pose proof (attempt_send_frame message k w) as Hframe.
    destruct (attempt_send message k w) as [w1 r]. simpl in Hok, Hframe. subst r.
    apply IH. rewrite Hframe. exact Hm.
  - apply IH. exact Hm.
Qed.

End Framed.

Lemma send_to_each_sent (message : JsValue) (ps : list string) :
  (forall p m (w : World E), sent (fst (sendToPeer p m w)) = sent w) ->
  forall w : World E,
    sent (fst (send_to_each message ps w))
    = (sent w ++ map (fun p => (p, message)) ps)%list.
Proof.
  intros Hsent. induction ps as [|p rest IH]; intros w.
  - simpl. rewrite app_nil_r. reflexivity.
  - unfold send_to_each in *. simpl forEach. unfold bind.
    pose proof (attempt_send_total message p w) as Hok.
    assert (Hone : sent (fst (attempt_send message p w)) = (sent w ++ [(p, message)])%list).
    { unfold attempt_send.
      pose proof (Hsent p message (add_sent p message w)) as H.
      destruct (sendToPeer p message (add_sent p message w)) as [w1 [[]|err]];
        simpl in *; exact H. }
    destruct (attempt_send message p w) as [w1 r]. simpl in Hok, Hone. subst r.
    rewrite IH, Hone. rewrite <- app_assoc. reflexivity.
Qed.

(** C9.  Let [sendToPeer], which the class calls and does not define,
    leave the connection table as it is (so that the loop visits the
    table it started on).  Then [broadcast(message)] is
    one send to each peer whose connection is [connected], in table
    order, and to no other: it runs [sendToPeer] for exactly those
    peers, each in the state the previous one left, a rejected send
    being logged and the next peer's send made all the same; it returns
    normally whatever the sends do.  If [sendToPeer] leaves the record
    of attempts alone as well, the attempts recorded are those, one per
    connected peer. *)
Theorem broadcast_reaches_connected (message : JsValue) (w : World E) :
  (forall p m (w1 : World E), connections (fst (sendToPeer p m w1)) = connections w1) ->
  broadcast message w = send_to_each message (connected_peers (connections w)) w
  /\ snd (broadcast message w) = Ok tt
  /\ (forall p,
        In p (connected_peers (connections w))
        <-> exists c, JsMap.get p (connections w) = Some c /\ status c = "connected")
  /\ (forall p rest (w1 : World E),
        send_to_each message (p :: rest) w1
        = send_to_each message rest (fst (attempt_send message p w1)))
  /\ (forall p (w1 w2 : World E) r,
        sendToPeer p message (add_sent p message w1) = (w2, r) ->
        attempt_send message p w1
        = (match r with
           | Ok _ => w2
           | Throw err =>
               add_log (mkLog LError ("Failed to broadcast to peer " ++ p ++ ":")
                          (Some err)) w2
           end, Ok tt))
  /\ ((forall p m (w1 : World E), sent (fst (sendToPeer p m w1)) = sent w1) ->
      sent (fst (broadcast message w))
      = (sent w ++ map (fun p => (p, message)) (connected_peers (connections w)))%list).
Proof.
  intros Hframe.
  assert (Hrun : broadcast message w
                 = send_to_each message (connected_peers (connections w)) w).
  { unfold broadcast, forEachEntry, bind at 1, gets at 1. cbv beta iota.
    apply (broadcast_loop Hframe). reflexivity. }
  split; [exact Hrun|].
  split; [rewrite Hrun; apply send_to_each_total|].
  split.
  { intros p. unfold connected_peers. rewrite filter_In. unfold is_connected. split.
    - intros [_ Hconn]. destruct (JsMap.get p (connections w)) as [c|]; [|discriminate].
      exists c. split; [reflexivity|]. apply String.eqb_eq. exact Hconn.
    - intros [c [Hget Hstatus]]. split; [apply (get_in_keys p c); exact Hget|].
      rewrite Hget. apply String.eqb_eq. exact Hstatus. }
  split.
  { intros p rest w1. unfold send_to_each. simpl forEach. unfold bind.
    pose proof (attempt_send_total message p w1) as Hok.
    destruct (attempt_send message p w1) as [w2 r]. simpl in Hok. subst r. reflexivity. }
  split.
  { intros p w1 w2 r Hsend. unfold attempt_send. rewrite Hsend.
    destruct r as [[]|err]; reflexivity. }
  intros Hsent. rewrite Hrun. apply send_to_each_sent. exact Hsent.
Qed.

(** *** Inbound messages *)

(** The [&&] chain of [validateMessage] accepts exactly the well-formed
    messages. *)
Lemma validateMessage_spec (message : JsValue) :
  truthy (validateMessage message) = well_formed_message message.
Proof.
  unfold validateMessage.
  destruct message as [| |b|z|str|fields|items]; simpl; try reflexivity.
  - destruct b; reflexivity.
  - destruct (z =? 0) eqn:Hz; simpl; rewrite ?Hz; reflexivity.
  - destruct (str =? "")%string eqn:Hstr; simpl; rewrite ?Hstr; reflexivity.
  - destruct (lookup_field "type" fields), (lookup_field "data" fields); reflexivity.
Qed.

Section Router.

Context {handlers : Handlers E}.

Lemma dispatch_own_errors (message : JsValue) (w : World E) :
  own_errors handlers ->
  snd (dispatch message w) <> Throw InvalidMessageFormat.
Proof.
  intros Hown. unfold dispatch.
  destruct (Hown (prop message "data") w) as (H1 & H2 & H3 & H4 & H5).
  destruct (prop message "type") as [| |b|z|type|fields|items]; try discriminate.
  destruct (type =? "PEER_ANNOUNCE")%string; [exact H1|].
  destruct (type =? "RESOURCE_UPDATE")%string; [exact H2|].
  destruct (type =? "OFFER")%string; [exact H3|].
  destruct (type =? "ANSWER")%string; [exact H4|].
  destruct (type =? "ICE_CANDIDATE")%string; [exact H5|].
  discriminate.
Qed.

(** C5.  With handlers that own their errors, [handleMessage] rejects
    with "Invalid message format" exactly when the message is not a
    structured object with a string [type] and a present [data]; and
    in that case nothing but the log has changed: the instance, its
    database, timers, pending calls, sends and the outside are as
    before, and the log has one more error line. *)
Theorem handleMessage_validation (message : JsValue) (w : World E) :
  own_errors handlers ->
  (snd (handleMessage message w) = Throw InvalidMessageFormat
   <-> well_formed_message message = false)
  /\ (well_formed_message message = false ->
      handleMessage message w =
        (add_log (mkLog LError "Error handling message:" (Some InvalidMessageFormat)) w,
         Throw InvalidMessageFormat)).
Proof.
  intros Hown.
  pose proof (dispatch_own_errors message w Hown) as Hdispatch.
  unfold handleMessage, try_catch, bind at 1.
  rewrite validateMessage_spec.
  destruct (well_formed_message message); cbn [negb].
  - split; [|discriminate].
    change (ret tt w) with (w, Ok tt). cbv iota.
    destruct (dispatch message w) as [w1 [[]|err]]; simpl in *.
    + split; discriminate.
    + split; [|discriminate].
      intros Herr. injection Herr as Herr. subst err. contradiction Hdispatch. reflexivity.
  - split; [split; reflexivity | reflexivity].
Qed.

End Router.

(** *** The retry policy *)


Lemma retryConnection_known (p : string) (c : Connection) (w : World E) :
  JsMap.get p (connections w) = Some c ->
  retryConnection p w =
    (add_timer (retry_timer (config w) p c)
       (set_connections (JsMap.set p (with_retries (retries c + 1) c)) w),
     Ok tt).
Proof.
  intros Hget. unfold retryConnection, bind, gets, modify. simpl.
  rewrite Hget. reflexivity.
Qed.

(** One timeout for a peer with a connection: the connection is closed
    and, below the retry limit, its counter goes up by one and one
    timer is set. *)
Lemma handleConnectionTimeout_known (p : string) (c : Connection) (w : World E) :
  JsMap.get p (connections w) = Some c ->
  handleConnectionTimeout p w =
    (if retries c <? maxRetries (config w)
     then add_timer (retry_timer (config w) p c)
            (set_connections (JsMap.set p (after_timeout (config w) c)) w)
     else set_connections (JsMap.set p (after_timeout (config w) c)) w,
     Ok tt).
Proof.
  intros Hget.
  unfold handleConnectionTimeout, try_catch, bind at 1, closeConnection, bind at 1,
    gets at 1.
  cbv beta iota. rewrite Hget. unfold modify at 1. cbv beta iota.
  unfold bind at 1, gets at 1. cbv beta iota.
  unfold shouldRetryConnection at 1, after_timeout.
  cbn [connections config set_connections].
  rewrite get_set_same. cbn [retries with_status truthy].
  destruct (retries c <? maxRetries (config w)); [|reflexivity].
  rewrite (retryConnection_known p (closed c)) by (simpl; apply get_set_same).
  unfold add_timer, set_connections, retry_timer, closed. simpl.
  rewrite set_set. reflexivity.
Qed.

(** What one timeout does to the peer's own entry, the timers and the
    configuration. *)
Lemma handleConnectionTimeout_effect (p : string) (c : Connection) (w : World E) :
  JsMap.get p (connections w) = Some c ->
  let w' := fst (handleConnectionTimeout p w) in
  JsMap.get p (connections w') = Some (after_timeout (config w) c)
  /\ config w' = config w
  /\ timers w' =
       (timers w ++ if retries c <? maxRetries (config w)
                    then [retry_timer (config w) p c] else [])%list.
Proof.
  intros Hget. cbv zeta. rewrite (handleConnectionTimeout_known p c w Hget).
  destruct (retries c <? maxRetries (config w)); simpl.
  - split; [apply get_set_same|]. split; reflexivity.
  - rewrite app_nil_r. split; [apply get_set_same|]. split; reflexivity.
Qed.




(** *** The heartbeat monitor *)

(** One turn of the monitor's loop. *)
Lemma monitor_step (now : Z) (k : string) (w : World E) :
  visit connections (monitorConnections_body now) k w =
    match JsMap.get k (connections w) with
    | None => (w, Ok tt)
    | Some ck =>
        if (status ck =? "connected")%string
           && stale now (connectionTimeout (config w)) ck
        then handleConnectionTimeout k
               (add_log (mkLog LWarn ("Connection to peer " ++ k ++ " timed out") None) w)
        else (w, Ok tt)
    end.
Proof.
  unfold visit, bind at 1, gets at 1. cbv beta iota.
  destruct (JsMap.get k (connections w)) as [ck|]; [|reflexivity].
  unfold monitorConnections_body, bind at 1, gets at 1. cbv beta iota.
  destruct ((status ck =? "connected")%string
            && stale now (connectionTimeout (config w)) ck); reflexivity.
Qed.

(** A turn finishes, keeps the configuration and the clock, leaves the
    other peers' entries alone, and removes no timer. *)
Lemma monitor_step_frame (now : Z) (k : string) (w : World E) :
  let w' := fst (visit connections (monitorConnections_body now) k w) in
  snd (visit connections (monitorConnections_body now) k w) = Ok tt
  /\ config w' = config w
  /\ (forall q, q <> k -> JsMap.get q (connections w') = JsMap.get q (connections w))
  /\ (forall t, In t (timers w) -> In t (timers w')).
Proof.
  cbv zeta. rewrite monitor_step.
  destruct (JsMap.get k (connections w)) as [ck|] eqn:Hget;
    [|repeat split; auto].
  destruct ((status ck =? "connected")%string
            && stale now (connectionTimeout (config w)) ck);
    [|repeat split; auto].
  set (w1 := add_log _ w).
  assert (Hget1 : JsMap.get k (connections w1) = Some ck) by exact Hget.
  rewrite (handleConnectionTimeout_known k ck w1 Hget1).
  destruct (retries ck <? maxRetries (config w1)); simpl.
  - split; [reflexivity|]. split; [reflexivity|]. split.
    + intros q Hq. apply get_set_other. exact Hq.
    + intros t Ht. apply in_or_app. left. exact Ht.
  - split; [reflexivity|]. split; [reflexivity|]. split.
    + intros q Hq. apply get_set_other. exact Hq.
    + intros t Ht. exact Ht.
Qed.

Section OnePeer.

(** The peer under watch: [c] is its connection when the monitor
    starts at time [now] under configuration [cfg]. *)
Variables (p : string) (c : Connection) (now : Z) (cfg : Config).

Hypothesis c_connected : status c = "connected".
Hypothesis c_stale : stale now (connectionTimeout cfg) c = true.

Lemma after_timeout_closed : status (after_timeout cfg c) = "closed".
Proof.
  unfold after_timeout. destruct (retries c <? maxRetries cfg); reflexivity.
Qed.

Lemma monitor_step_fires (w : World E) :
  pending cfg p c w ->
  handled cfg p c (fst (visit connections (monitorConnections_body now) p w)).
Proof.
  intros [Hcfg Hget]. rewrite monitor_step, Hget, Hcfg, c_connected, c_stale. simpl.
  set (w1 := add_log _ w).
  assert (Hget1 : JsMap.get p (connections w1) = Some c) by exact Hget.
  assert (Hcfg1 : config w1 = cfg) by exact Hcfg.
  destruct (handleConnectionTimeout_effect p c w1 Hget1) as (Hget' & Hcfg' & Htimers').
  rewrite Hcfg1 in Hget', Hcfg', Htimers'.
  split; [exact Hcfg'|]. split; [exact Hget'|].
  intros Hlt. rewrite Htimers'. apply Z.ltb_lt in Hlt. rewrite Hlt.
  apply in_or_app. right. left. reflexivity.
Qed.

Lemma monitor_step_keeps_pending (k : string) (w : World E) :
  k <> p ->
  pending cfg p c w ->
  pending cfg p c (fst (visit connections (monitorConnections_body now) k w)).
Proof.
  intros Hk [Hcfg Hget].
  destruct (monitor_step_frame now k w) as (_ & Hcfg' & Hothers & _).
  split; [rewrite Hcfg'; exact Hcfg|].
  rewrite Hothers by (intros Heq; apply Hk; symmetry; exact Heq). exact Hget.
Qed.

Lemma monitor_step_keeps_handled (k : string) (w : World E) :
  handled cfg p c w ->
  handled cfg p c (fst (visit connections (monitorConnections_body now) k w)).
Proof.
  intros (Hcfg & Hget & Htimer).
  destruct (string_dec k p) as [Heq | Hneq].
  - subst k. rewrite monitor_step, Hget, after_timeout_closed. simpl.
    split; [exact Hcfg|]. split; [exact Hget | exact Htimer].
  - destruct (monitor_step_frame now k w) as (_ & Hcfg' & Hothers & Htimers).
    split; [rewrite Hcfg'; exact Hcfg|].
    split.
    + rewrite Hothers by (intros Heq; apply Hneq; symmetry; exact Heq). exact Hget.
    + intros Hlt. apply Htimers. apply Htimer. exact Hlt.
Qed.

Lemma monitor_loop_total (ks : list string) (w : World E) :
  snd (forEach ks (visit connections (monitorConnections_body now)) w) = Ok tt.
Proof.
  apply forEach_total. intros k w0.
  destruct (monitor_step_frame now k w0) as (Hok & _). exact Hok.
Qed.

Lemma monitor_loop_handled (ks : list string) :
  forall w : World E,
    handled cfg p c w ->
    handled cfg p c (fst (forEach ks (visit connections (monitorConnections_body now)) w)).
Proof.
  induction ks as [|k rest IH]; intros w Hw; [exact Hw|].
  rewrite forEach_cons_total
    by (destruct (monitor_step_frame now k w) as (Hok & _); exact Hok).
  apply IH. apply monitor_step_keeps_handled. exact Hw.
Qed.

Lemma monitor_loop_pending (ks : list string) :
  forall w : World E,
    pending cfg p c w ->
    In p ks ->
    handled cfg p c (fst (forEach ks (visit connections (monitorConnections_body now)) w)).
Proof.
  induction ks as [|k rest IH]; intros w Hw Hin; [contradiction|].
  rewrite forEach_cons_total
    by (destruct (monitor_step_frame now k w) as (Hok & _); exact Hok).
  destruct (string_dec k p) as [Heq | Hneq].
  - subst k. apply monitor_loop_handled. apply monitor_step_fires. exact Hw.
  - apply IH.
    + apply monitor_step_keeps_pending; assumption.
    + destruct Hin as [Heq | Hin]; [contradiction | exact Hin].
Qed.

End OnePeer.

(** With a [closeConnection] as the design describes it, the monitor
    would do what the design says.  Let [c] be a peer's connection,
    [connected] and last active more than [config.connectionTimeout]
    before now.  One run of the monitor, whatever else is in the table,
    returns normally and leaves that peer's connection [closed] and
    handed to the retry policy: below the retry limit its [retries] is
    up by exactly 1 and a timer for the next establishment attempt is
    set; at the limit [retries] is unchanged. *)
Lemma monitorConnections_times_out (p : string) (c : Connection) (t : Z) (w : World E) :
  JsMap.get p (connections w) = Some c ->
  status c = "connected" ->
  lastActive c = Some t ->
  Date_now (ext w) - t > connectionTimeout (config w) ->
  let w' := fst (monitorConnections w) in
  snd (monitorConnections w) = Ok tt
  /\ (exists c',
        JsMap.get p (connections w') = Some c'
        /\ status c' = "closed"
        /\ status c' <> "connected"
        /\ retries c' = (if retries c <? maxRetries (config w)
                         then retries c + 1 else retries c))
  /\ (retries c < maxRetries (config w) ->
      In {| delay := retryDelay (config w) * (retries c + 1); target := p |} (timers w')).
Proof.
  intros Hget Hconnected Hactive Hlate w'.
  assert (Hstale : stale (Date_now (ext w)) (connectionTimeout (config w)) c = true).
  { unfold stale. rewrite Hactive. apply Z.gtb_lt. lia. }
  assert (Hloop : monitorConnections w =
                  forEach (JsMap.keys (connections w))
                    (visit connections (monitorConnections_body (Date_now (ext w)))) w)
    by reflexivity.
  subst w'. rewrite Hloop.
  split; [apply monitor_loop_total|].
  destruct (monitor_loop_pending p c (Date_now (ext w)) (config w) Hconnected Hstale
              (JsMap.keys (connections w)) w)
    as (_ & Hget' & Htimer).
  - split; [reflexivity | exact Hget].
  - apply (get_in_keys p c). exact Hget.
  - split; [|exact Htimer].
    exists (after_timeout (config w) c). split; [exact Hget'|].
    rewrite (after_timeout_closed c (config w)).
    split; [reflexivity|]. split; [discriminate|].
    unfold after_timeout. destruct (retries c <? maxRetries (config w)); reflexivity.
Qed.

(** *** The monitor in the class as the file has it *)

Lemma add_logs_app (xs ys : list LogEntry) (w : World E) :
  add_logs (xs ++ ys) w = add_logs ys (add_logs xs w).
Proof. unfold add_logs. apply fold_left_app. Qed.

Lemma add_logs_spec (ls : list LogEntry) :
  forall w : World E,
    add_logs ls w
    = {| peers := peers w; connections := connections w; db := db w;
         config := config w; limits := limits w; log := (log w ++ ls)%list;
         timers := timers w; detached := detached w; sent := sent w; ext := ext w |}.
Proof.
  induction ls as [|l rest IH]; intros w.
  - simpl. rewrite app_nil_r. destruct w; reflexivity.
  - unfold add_logs in *. simpl. rewrite IH. simpl. rewrite <- app_assoc. reflexivity.
Qed.

(** The call of line 405 throws, the [catch] of line 409 logs, and that
    is all. *)
Lemma handleConnectionTimeout_as_shipped (p : string) (w : World E) :
  handleConnectionTimeout_with no_closeConnection p w
  = (add_log
       (mkLog LError ("Failed to handle connection timeout for peer " ++ p ++ ":")
          (Some (TypeError "this.closeConnection is not a function"))) w,
     Ok tt).
Proof. reflexivity. Qed.

Lemma monitor_step_as_shipped (now : Z) (k : string) (w : World E) :
  visit connections (monitorConnections_body_with no_closeConnection now) k w
  = (if overdue now (config w) (connections w) k
     then add_logs (timeout_report k) w else w,
     Ok tt).
Proof.
  unfold visit, bind, gets, overdue. cbv beta iota.
  destruct (JsMap.get k (connections w)) as [c|]; [|reflexivity].
  unfold monitorConnections_body_with, bind, gets. cbv beta iota.
  destruct ((status c =? "connected")%string
            && stale now (connectionTimeout (config w)) c); reflexivity.
Qed.

Lemma monitor_loop_as_shipped (now : Z) (ks : list string) :
  forall w : World E,
    forEach ks (visit connections (monitorConnections_body_with no_closeConnection now)) w
    = (add_logs
         (flat_map timeout_report
            (filter (overdue now (config w) (connections w)) ks)) w,
       Ok tt).
Proof.
  induction ks as [|k rest IH]; intros w; [reflexivity|].
  simpl forEach. unfold bind. rewrite monitor_step_as_shipped.
  simpl filter. destruct (overdue now (config w) (connections w) k).
  - rewrite IH.
    assert (Hconfig : config (add_logs (timeout_report k) w) = config w)
      by (rewrite add_logs_spec; reflexivity).
    assert (Hconn : connections (add_logs (timeout_report k) w) = connections w)
      by (rewrite add_logs_spec; reflexivity).
    rewrite Hconfig, Hconn. cbn [flat_map]. rewrite add_logs_app. reflexivity.
  - apply IH.
Qed.

(** C7, as the code has it.  Let [c] be a peer's connection,
    [connected] and last active more than [config.connectionTimeout]
    before now.  One run of [monitorConnections] in the class as the
    file has it, where [closeConnection] is not defined, returns
    normally and leaves the connection as it was: still [connected],
    its [retries] unchanged, the whole table and the timers untouched.
    All it does is write the timeout warning and, for the [TypeError]
    of line 405 caught at line 409, an error to the log. *)
Theorem monitorConnections_as_shipped (p : string) (c : Connection) (t : Z) (w : World E) :
  JsMap.get p (connections w) = Some c ->
  status c = "connected" ->
  lastActive c = Some t ->
  Date_now (ext w) - t > connectionTimeout (config w) ->
  let w' := fst (monitorConnections_with no_closeConnection w) in
  snd (monitorConnections_with no_closeConnection w) = Ok tt
  /\ JsMap.get p (connections w') = Some c
  /\ connections w' = connections w
  /\ timers w' = timers w
  /\ (forall l, In l (timeout_report p) -> In l (log w')).
Proof.
  intros Hget Hconnected Hactive Hlate w'.
  assert (Hloop : monitorConnections_with no_closeConnection w
                  = forEach (JsMap.keys (connections w))
                      (visit connections
                         (monitorConnections_body_with no_closeConnection
                            (Date_now (ext w)))) w)
    by reflexivity.
  subst w'. rewrite Hloop, monitor_loop_as_shipped, add_logs_spec. simpl.
  split; [reflexivity|]. split; [exact Hget|].
  split; [reflexivity|]. split; [reflexivity|].
  intros l Hl. apply in_or_app. right. apply in_flat_map. exists p.
  split; [|exact Hl].
  apply filter_In. split; [apply (get_in_keys p c); exact Hget|].
  unfold overdue, stale. rewrite Hget, Hactive.
  apply andb_true_intro. split; [apply String.eqb_eq; exact Hconnected|].
  apply Z.gtb_lt. lia.
Qed.

(** *** Connection establishment *)

Lemma establishConnection_known (p : string) (peer : Peer) (w : World E) :
  JsMap.get p (peers w) = Some peer ->
  establishConnection p w =
    match exchange p w with
    | (w1, Ok _) => (w1, Ok tt)
    | (w1, Throw err) =>
        handleConnectionError p err
          (add_log
             (mkLog LError ("Failed to establish connection with peer " ++ p ++ ":")
                (Some err)) w1)
    end.
Proof.
  intros Hknown.
  unfold establishConnection, bind at 1, gets at 1. cbv beta iota. rewrite Hknown.
  unfold try_catch. destruct (exchange p w) as [w1 [[]|err]]; reflexivity.
Qed.


(** The one exception [establishConnection] does raise. *)
Lemma establishConnection_unknown_peer (p : string) (w : World E) :
  JsMap.get p (peers w) = None ->
  establishConnection p w = (w, Throw PeerNotFound).
Proof.
  intros Hunknown. unfold establishConnection, bind, gets. simpl.
  rewrite Hunknown. reflexivity.
Qed.

End Network.

Example generatePeerId_alice : generatePeerId alice = alice_id.
Proof. vm_compute. reflexivity. Qed.

(** C3 at Alice's descriptor, first in a fresh instance and again,
    under another name, in [crowded_world]. *)
Lemma addPeer_id_is_sha256_witness :
  snd (@addPeer Net wire alice (fresh_world 1700000000000 [])) = Ok alice_id
  /\ alice_id = SHA256.hexdigest "abc123"
  /\ snd (@addPeer Net wire (mkPeer "Alicia" "abc123" JNull) crowded_world) = Ok alice_id.
Proof.
  assert (H1 : snd (@addPeer Net wire alice (fresh_world 1700000000000 [])) = Ok alice_id)
    by (vm_compute; reflexivity).
  assert (H2 : snd (@addPeer Net wire (mkPeer "Alicia" "abc123" JNull) crowded_world)
               = Ok alice_id)
    by (vm_compute; reflexivity).
  destruct (addPeer_id_is_sha256 alice (fresh_world 1700000000000 []) alice_id H1)
    as (Hid & _ & _ & _ & Hsame).
  pose proof (Hsame (mkPeer "Alicia" "abc123" JNull) crowded_world alice_id eq_refl H2).
  split; [exact H1|]. split; [exact Hid | exact H2].
Defined.

(** C4 with the default limit: an eleventh peer is refused and the ten
    stay ten. *)
Lemma addPeer_at_limit_witness :
  maxPeers (limits full_world) <= JsMap.size (peers full_world)
  /\ @addPeer Net wire (numbered_peer 10) full_world = (full_world, Throw PeerLimitExceeded)
  /\ JsMap.size (peers (fst (@addPeer Net wire (numbered_peer 10) full_world))) = 10.
Proof.
  assert (H : maxPeers (limits full_world) <= JsMap.size (peers full_world))
    by (vm_compute; discriminate).
  pose proof (@addPeer_at_limit Net wire (numbered_peer 10) full_world H) as Hstay.
  split; [exact H|]. split; [exact Hstay|].
  rewrite Hstay. reflexivity.
Defined.

(** C10 as first stated fails at [crowded_world]: Alice is registered
    and the directory has room, yet after [addPeer] her connection is
    the old one, connected and with one retry, because the connection
    table already holds [limits.maxConnections] entries. *)
Lemma addPeer_again_at_connection_limit :
  JsMap.get (generatePeerId alice) (peers crowded_world) = Some alice
  /\ JsMap.size (peers crowded_world) < maxPeers (limits crowded_world)
  /\ snd (@addPeer Net wire alice crowded_world) = Ok alice_id
  /\ ~ (exists c,
          JsMap.get alice_id (connections (fst (@addPeer Net wire alice crowded_world)))
          = Some c
          /\ fresh_connection c).
Proof.
  split; [vm_compute; reflexivity|].
  split; [vm_compute; reflexivity|].
  split; [vm_compute; reflexivity|].
  intros [c [Hget [Hstatus _]]].
  vm_compute in Hget. injection Hget as Hc. subst c. discriminate Hstatus.
Qed.

(** C10 (as amended) at [alice_world], where the connection table has
    room: Alice's connection is replaced by a new one. *)
Lemma addPeer_again_witness :
  JsMap.get (generatePeerId alice) (peers alice_world) = Some alice
  /\ JsMap.size (peers alice_world) < maxPeers (limits alice_world)
  /\ db alice_world = Some alice_db
  /\ JsMap.size (peers (fst (@addPeer Net wire alice alice_world))) = 1
  /\ JsMap.get alice_id (connections (fst (@addPeer Net wire alice alice_world)))
     = Some (newConnection "uuid-1" alice_id 1700000000000).
Proof.
  assert (H1 : JsMap.get (generatePeerId alice) (peers alice_world) = Some alice)
    by (vm_compute; reflexivity).
  assert (H2 : JsMap.size (peers alice_world) < maxPeers (limits alice_world))
    by (vm_compute; reflexivity).
  assert (H3 : db alice_world = Some alice_db) by reflexivity.
  destruct (@addPeer_again Net wire alice alice alice_world alice_db H1 H2 H3)
    as (_ & Hsize & _ & _ & _ & _ & Hfresh & _).
  destruct Hfresh as [Hconn _]; [vm_compute; reflexivity|].
  repeat split; try assumption.
Defined.

Lemma no_handlers_own_errors : own_errors (@no_handlers Net).
Proof.
  intros data w. repeat split; discriminate.
Qed.

(** C5 with the handlers as the file has them, on the message without
    [data] and on a valid announcement. *)
Lemma handleMessage_validation_witness :
  own_errors (@no_handlers Net)
  /\ well_formed_message message_without_data = false
  /\ @handleMessage Net no_handlers message_without_data (fresh_world 0 [])
     = (add_log (mkLog LError "Error handling message:" (Some InvalidMessageFormat))
          (fresh_world 0 []),
        Throw InvalidMessageFormat)
  /\ snd (@handleMessage Net no_handlers announcement (fresh_world 0 []))
     <> Throw InvalidMessageFormat.
Proof.
  destruct (@handleMessage_validation Net no_handlers message_without_data (fresh_world 0 [])
              no_handlers_own_errors) as [_ Hinvalid].
  destruct (@handleMessage_validation Net no_handlers announcement (fresh_world 0 [])
              no_handlers_own_errors) as [Hiff _].
  split; [exact no_handlers_own_errors|].
  split; [reflexivity|].
  split; [apply Hinvalid; reflexivity|].
  intros Hthrown. apply Hiff in Hthrown. discriminate Hthrown.
Defined.



(** C9 with three connected peers, the second of them unreachable, and
    a fourth still initializing: the first three are each sent the
    message, the failure is logged, the fourth is left alone. *)
Lemma broadcast_reaches_connected_witness :
  (forall p m (w1 : World Net),
     connections (fst (@sendToPeer Net carrier p m w1)) = connections w1)
  /\ (forall p m (w1 : World Net), sent (fst (@sendToPeer Net carrier p m w1)) = sent w1)
  /\ length (JsMap.keys (connections quartet_world)) = 4%nat
  /\ connected_peers (connections quartet_world)
     = firstn 3 (JsMap.keys (connections quartet_world))
  /\ snd (@broadcast Net carrier ping quartet_world) = Ok tt
  /\ sent (fst (@broadcast Net carrier ping quartet_world))
     = map (fun p => (p, ping)) (firstn 3 (JsMap.keys (connections quartet_world)))
  /\ map text (log (fst (@broadcast Net carrier ping quartet_world)))
     = ["Failed to broadcast to peer be2974546978e3739e6d6da85c4be9f334ce32df2b9fd4b6ff1b55c0d57e9d44:"].
Proof.
  assert (Hframe : forall p m (w1 : World Net),
             connections (fst (@sendToPeer Net carrier p m w1)) = connections w1)
    by (intros p m w1; reflexivity).
  assert (Hsent : forall p m (w1 : World Net),
             sent (fst (@sendToPeer Net carrier p m w1)) = sent w1)
    by (intros p m w1; reflexivity).
  destruct (@broadcast_reaches_connected Net carrier ping quartet_world Hframe)
    as (Hrun & Hok & _ & _ & _ & Hjournal).
  split; [exact Hframe|]. split; [exact Hsent|].
  split; [vm_compute; reflexivity|].
  split; [vm_compute; reflexivity|].
  split; [exact Hok|].
  split; [rewrite (Hjournal Hsent); vm_compute; reflexivity|].
  rewrite Hrun. vm_compute. reflexivity.
Defined.


(** At [silent_world], with a [closeConnection] as the design describes
    it: Alice's connection, connected with one retry behind it, is
    closed, has two retries, and a timer is set. *)
Lemma monitorConnections_times_out_witness :
  (exists c,
      JsMap.get alice_id (connections silent_world) = Some c
      /\ status c = "connected"
      /\ lastActive c = Some 1700000000000
      /\ retries c = 1)
  /\ clock (ext silent_world) - 1700000000000 > connectionTimeout (config silent_world)
  /\ (exists c',
        JsMap.get alice_id (connections (fst (@monitorConnections Net wire silent_world)))
        = Some c'
        /\ status c' = "closed"
        /\ retries c' = 2)
  /\ In {| delay := 2000; target := alice_id |}
       (timers (fst (@monitorConnections Net wire silent_world))).
Proof.
  pose (c := {| id := "uuid-0"; peerId := alice_id; status := "connected";
                established := 1700000000000; lastActive := Some 1700000000000;
                retries := 1 |}).
  assert (H1 : JsMap.get alice_id (connections silent_world) = Some c)
    by (vm_compute; reflexivity).
  assert (H2 : clock (ext silent_world) - 1700000000000
               > connectionTimeout (config silent_world))
    by (vm_compute; reflexivity).
  destruct (@monitorConnections_times_out Net wire alice_id c 1700000000000 silent_world
              H1 eq_refl eq_refl H2) as (_ & (c' & Hget' & Hclosed & _ & Hretries) & Htimer).
  split; [exists c; repeat split; exact H1|].
  split; [exact H2|].
  split; [exists c'; repeat split; assumption|].
  apply Htimer. vm_compute. reflexivity.
Defined.

(** C7 at [silent_world], in the class as the file has it: Alice's
    connection has been silent for eleven seconds, one more than the
    timeout, and the monitor leaves it connected with its one retry and
    the one timer there was; the log has the warning and the error. *)
Lemma monitorConnections_as_shipped_witness :
  (exists c,
      JsMap.get alice_id (connections silent_world) = Some c
      /\ status c = "connected"
      /\ lastActive c = Some 1700000000000
      /\ retries c = 1
      /\ JsMap.get alice_id
           (connections (fst (@monitorConnections_with Net wire no_closeConnection
                                silent_world)))
         = Some c)
  /\ clock (ext silent_world) - 1700000000000 > connectionTimeout (config silent_world)
  /\ snd (@monitorConnections_with Net wire no_closeConnection silent_world) = Ok tt
  /\ timers (fst (@monitorConnections_with Net wire no_closeConnection silent_world))
     = timers silent_world
  /\ map text (log (fst (@monitorConnections_with Net wire no_closeConnection silent_world)))
     = map text (timeout_report alice_id).
Proof.
  pose (c := {| id := "uuid-0"; peerId := alice_id; status := "connected";
                established := 1700000000000; lastActive := Some 1700000000000;
                retries := 1 |}).
  assert (H1 : JsMap.get alice_id (connections silent_world) = Some c)
    by (vm_compute; reflexivity).
  assert (H2 : clock (ext silent_world) - 1700000000000
               > connectionTimeout (config silent_world))
    by (vm_compute; reflexivity).
  destruct (@monitorConnections_as_shipped Net wire alice_id c 1700000000000 silent_world
              H1 eq_refl eq_refl H2) as (Hok & Hget' & _ & Htimers & _).
  split.
  { exists c. split; [exact H1|]. split; [reflexivity|]. split; [reflexivity|].
    split; [reflexivity | exact Hget']. }
  split; [exact H2|].
  split; [exact Hok|].
  split; [exact Htimers|].
  vm_compute. reflexivity.
Defined.

End P2PSpec.

(** ** More of the connection supervisor *)

Module P2PMore.

Import P2P AsyncFacts JsMapFacts P2PSpec.

Section Supervisor.

Context {E : Type} {platform : Platform E}.

Section AnyMethods.

Context {methods : Methods E}.

(** *** [initializeConnection] *)


(** With the connection table full, [initializeConnection] rejects
    with "Maximum connection limit reached" and changes nothing: no
    UUID is drawn, nothing is logged. *)
Theorem initializeConnection_at_limit (p : string) (w : World E) :
  maxConnections (limits w) <= JsMap.size (connections w) ->
  initializeConnection p w = (w, Throw ConnectionLimitExceeded).
Proof.
  intros Hfull. unfold initializeConnection, bind, gets. simpl.
  destruct (JsMap.size (connections w) >=? maxConnections (limits w)) eqn:Hge;
    [reflexivity|].
  rewrite Z.geb_leb in Hge. apply Z.leb_gt in Hge. lia.
Qed.


End AnyMethods.

(** *** Establishment in the class as the file has it *)

(** With [sendToPeer] missing, the exchange cannot get past the sending
    of the offer: it fails every time, having touched nothing but the
    outside and the record of attempts. *)
Lemma exchange_as_shipped (p : string) (w : World E) :
  exists w1 err,
    @exchange E platform as_shipped p w = (w1, Throw err)
    /\ same_instance w w1
    /\ log w1 = log w.
Proof.
  unfold exchange, transmit, bind, outside, modify, same_instance. simpl.
  destruct (createOffer (ext w)) as [e1 [offer|err]]; simpl.
  - destruct (setLocalDescription offer e1) as [e2 [[]|err]]; simpl;
      eexists; eexists; (split; [reflexivity|]); simpl; repeat split; reflexivity.
  - eexists; eexists; (split; [reflexivity|]); simpl; repeat split; reflexivity.
Qed.

Lemma establishConnection_shipped_run (p : string) (peer : Peer) (w : World E) :
  JsMap.get p (peers w) = Some peer ->
  let w' := fst (@establishConnection E platform as_shipped p w) in
  snd (@establishConnection E platform as_shipped p w)
  = Throw (TypeError "this.handleConnectionError is not a function")
  /\ same_instance w w'
  /\ exists err,
       log w' = (log w ++
                 [mkLog LError ("Failed to establish connection with peer " ++ p ++ ":")
                    (Some err)])%list.
Proof.
  intros Hknown. cbv zeta.
  rewrite (@establishConnection_known E platform as_shipped p peer w Hknown).
  destruct (exchange_as_shipped p w) as (w1 & err & Hrun & Hsame & Hlog).
  rewrite Hrun. simpl.
  split; [reflexivity|]. split; [exact Hsame|].
  exists err. rewrite Hlog. reflexivity.
Qed.

(** In the class as the file has it, [establishConnection] for a known
    peer never returns normally: the exchange fails, the failure is
    logged, and the call of the missing [handleConnectionError] ends it
    with a [TypeError].  Directory, connection table, database,
    settings and timers are as before: no connection is ever marked
    [connected] this way and no retry is scheduled. *)
Theorem establishConnection_as_shipped (p : string) (peer : Peer) (w : World E) :
  JsMap.get p (peers w) = Some peer ->
  let w' := fst (@establishConnection E platform as_shipped p w) in
  snd (@establishConnection E platform as_shipped p w)
  = Throw (TypeError "this.handleConnectionError is not a function")
  /\ same_instance w w'
  /\ exists err,
       log w' = (log w ++
                 [mkLog LError ("Failed to establish connection with peer " ++ p ++ ":")
                    (Some err)])%list.
Proof.
  intros Hknown. exact (establishConnection_shipped_run p peer w Hknown).
Qed.


(** *** Establishment in the background *)

Lemma establishConnection_shipped_any (p : string) (w : World E) :
  exists w1 err,
    @establishConnection E platform as_shipped p w = (w1, Throw err)
    /\ same_instance w w1.
Proof.
  destruct (JsMap.get p (peers w)) as [peer|] eqn:Hpeer.
  - destruct (establishConnection_shipped_run p peer w Hpeer) as (Hthrow & Hsame & _).
    destruct (@establishConnection E platform as_shipped p w) as [w1 r].
    simpl in Hthrow, Hsame. subst r.
    exists w1. eexists. split; [reflexivity | exact Hsame].
  - rewrite establishConnection_unknown_peer by exact Hpeer.
    exists w. eexists. split; [reflexivity|].
    unfold same_instance. repeat split; reflexivity.
Qed.

(** In the class as the file has it, the establishment attempts made
    in the background come to nothing.  Neither the
    [initializeConnection] that [addPeer] starts without awaiting it,
    when it resumes, nor a timer set by [retryConnection], when it
    fires, changes the instance: the attempt fails, at most a line is
    logged, and the connection stays as it was, so one that [addPeer]
    opened stays [initializing].  Neither raises. *)
Theorem background_establishment_as_shipped (p : string) (t : Timer) (w : World E) :
  snd (@resume_detached E platform as_shipped p w) = Ok tt
  /\ same_instance w (fst (@resume_detached E platform as_shipped p w))
  /\ snd (@fire E platform as_shipped t w) = Ok tt
  /\ same_instance w (fst (@fire E platform as_shipped t w)).
Proof.
  unfold resume_detached, fire, try_catch.
  destruct (establishConnection_shipped_any p w) as (w1 & err & Hrun & Hsame).
  destruct (establishConnection_shipped_any (target t) w) as (w2 & err2 & Hrun2 & Hsame2).
  rewrite Hrun, Hrun2. simpl.
  split; [reflexivity|]. split; [exact Hsame|]. split; [reflexivity | exact Hsame2].
Qed.

(** *** Keeping within the limits *)

Lemma addPeer_db_closed_run (peer : Peer) (w : World E) :
  JsMap.size (peers w) < maxPeers (limits w) ->
  db w = None ->
  addPeer peer w =
    (w, Throw (TypeError "Cannot read properties of null (reading 'prepare')")).
Proof.
  intros Hroom Hdb. unfold addPeer, bind at 1 2, gets at 1 2. cbv beta iota.
  destruct (JsMap.size (peers w) >=? maxPeers (limits w)) eqn:Hge.
  { rewrite Z.geb_leb in Hge. apply Z.leb_le in Hge. lia. }
  unfold bind, gets, db_run. simpl. rewrite Hdb. reflexivity.
Qed.

Lemma size_keys {V} (m m' : JsMap.t V) :
  JsMap.keys m' = JsMap.keys m -> JsMap.size m' = JsMap.size m.
Proof.
  intros Hkeys. unfold JsMap.size.
  rewrite <- (length_map fst m'), <- (length_map fst m).
  unfold JsMap.keys in Hkeys. rewrite Hkeys. reflexivity.
Qed.

Lemma addPeer_keeps_limits (peer : Peer) (w : World E) :
  P2PStates.within_limits w ->
  limits (fst (addPeer peer w)) = limits w
  /\ P2PStates.within_limits (fst (addPeer peer w)).
Proof.
  intros [Hpeers Hconns]. unfold P2PStates.within_limits.
  destruct (Z_lt_le_dec (JsMap.size (peers w)) (maxPeers (limits w))) as [Hroom | Hfull].
  - destruct (db w) as [d|] eqn:Hdb.
    + rewrite (addPeer_state peer w d Hroom Hdb). cbv zeta.
      pose proof (size_set_bounds (generatePeerId peer) peer (peers w)) as Hp.
      destruct (JsMap.size (connections w) >=? maxConnections (limits w)) eqn:Hge; simpl.
      * split; [reflexivity|]. split; [lia | exact Hconns].
      * rewrite Z.geb_leb in Hge. apply Z.leb_gt in Hge.
        match goal with
        | |- context [JsMap.set ?k ?v (connections w)] =>
            pose proof (size_set_bounds k v (connections w)) as Hc
        end.
        split; [reflexivity|]. split; lia.
    + rewrite (addPeer_db_closed_run peer w Hroom Hdb). simpl.
      split; [reflexivity|]. split; assumption.
  - unfold addPeer, bind, gets. simpl.
    destruct (JsMap.size (peers w) >=? maxPeers (limits w)) eqn:Hge.
    + simpl. split; [reflexivity|]. split; assumption.
    + rewrite Z.geb_leb in Hge. apply Z.leb_gt in Hge. lia.
Qed.

(** [addPeer], whatever its outcome, takes neither the directory above
    [limits.maxPeers] nor the connection table above
    [limits.maxConnections], and leaves the limits themselves alone. *)
Theorem addPeer_within_limits (peer : Peer) (w : World E) :
  P2PStates.within_limits w ->
  limits (fst (addPeer peer w)) = limits w
  /\ P2PStates.within_limits (fst (addPeer peer w)).
Proof.
  intros Hw. apply addPeer_keeps_limits. exact Hw.
Qed.

(** *** Adding a peer: the other cases *)

(** Before the database is open, [addPeer] fails with the [TypeError]
    of [this.db.prepare] on [null] and registers nothing. *)
Theorem addPeer_database_closed (peer : Peer) (w : World E) :
  JsMap.size (peers w) < maxPeers (limits w) ->
  db w = None ->
  addPeer peer w =
    (w, Throw (TypeError "Cannot read properties of null (reading 'prepare')")).
Proof.
  intros Hroom Hdb. apply addPeer_db_closed_run; assumption.
Qed.

(** Adding a peer whose id is not in the directory appends it: one
    more peer, placed last, every other entry as before; in the
    [peers] table the new row is appended and any stale row with the
    same id is gone, the other rows being kept in order. *)
Theorem addPeer_new_peer (peer : Peer) (d : Database) (w : World E) :
  JsMap.get (generatePeerId peer) (peers w) = None ->
  JsMap.size (peers w) < maxPeers (limits w) ->
  db w = Some d ->
  let p := generatePeerId peer in
  let w' := fst (addPeer peer w) in
  peers w' = (peers w ++ [(p, peer)])%list
  /\ JsMap.size (peers w') = JsMap.size (peers w) + 1
  /\ (forall q, q <> p -> JsMap.get q (peers w') = JsMap.get q (peers w))
  /\ (exists d',
        db w' = Some d'
        /\ peers_table d' =
             (filter (fun r => negb (row_id r =? p)%string) (peers_table d)
              ++ [newPeerRow p peer (Date_now (ext w))])%list).
Proof.
  intros Hnew Hroom Hdb p w'. subst w'.
  rewrite (addPeer_state peer w d Hroom Hdb). cbv zeta. fold p.
  assert (Hset : JsMap.set p peer (peers w) = (peers w ++ [(p, peer)])%list)
    by (apply set_absent; exact Hnew).
  destruct (JsMap.size (connections w) >=? maxConnections (limits w)); simpl;
    rewrite Hset.
  - split; [reflexivity|]. split.
    + unfold JsMap.size. rewrite length_app. simpl. lia.
    + split.
      * intros q Hq. rewrite <- Hset. apply get_set_other. exact Hq.
      * eexists. split; reflexivity.
  - split; [reflexivity|]. split.
    + unfold JsMap.size. rewrite length_app. simpl. lia.
    + split.
      * intros q Hq. rewrite <- Hset. apply get_set_other. exact Hq.
      * eexists. split; reflexivity.
Qed.

(** *** [updateConnectionStatus] and missing entries *)

Lemma update_rows_spec (st : string) (t : Z) (p : string) (rows : list ConnectionRow) :
  let rows' := connections_table
                 (update_connection_rows st t p (mkDatabase [] rows)) in
  length rows' = length rows
  /\ map crow_id rows' = map crow_id rows
  /\ (forall r, In r rows' -> crow_peerId r = p ->
                crow_status r = st /\ crow_lastActive r = t)
  /\ filter (fun r => negb (crow_peerId r =? p)%string) rows'
     = filter (fun r => negb (crow_peerId r =? p)%string) rows.
Proof.
  cbv zeta. simpl. induction rows as [|r rows (IH1 & IH2 & IH3 & IH4)]; simpl.
  - split; [reflexivity|]. split; [reflexivity|]. split; [|reflexivity].
    intros r0 [].
  - split; [rewrite IH1; reflexivity|].
    split; [rewrite IH2; destruct (crow_peerId r =? p)%string; reflexivity|].
    split.
    + intros r' [Heq | Hin] Hp.
      * subst r'. destruct (crow_peerId r =? p)%string eqn:Hr; simpl in *.
        -- split; reflexivity.
        -- apply String.eqb_neq in Hr. contradiction.
      * apply IH3; assumption.
    + destruct (crow_peerId r =? p)%string eqn:Hr; simpl; rewrite Hr; simpl;
        rewrite IH4; reflexivity.
Qed.

(** With the database open, [updateConnectionStatus] brings the table
    entry and the peer's rows into step: the entry gets the status and
    the current time as [lastActive], every [connections] row of the
    peer gets the same two values, and the rows of other peers, like
    their entries, are as before. *)
Theorem updateConnectionStatus_known (p st : string) (c : Connection) (d : Database)
  (w : World E) :
  JsMap.get p (connections w) = Some c ->
  db w = Some d ->
  let w' := fst (updateConnectionStatus p st w) in
  let now := Date_now (ext w) in
  snd (updateConnectionStatus p st w) = Ok tt
  /\ JsMap.get p (connections w') = Some (with_status st (Some now) c)
  /\ (forall q, q <> p -> JsMap.get q (connections w') = JsMap.get q (connections w))
  /\ exists d',
       db w' = Some d'
       /\ peers_table d' = peers_table d
       /\ map crow_id (connections_table d') = map crow_id (connections_table d)
       /\ (forall r, In r (connections_table d') -> crow_peerId r = p ->
                     crow_status r = st /\ crow_lastActive r = now)
       /\ filter (fun r => negb (crow_peerId r =? p)%string) (connections_table d')
          = filter (fun r => negb (crow_peerId r =? p)%string) (connections_table d).
Proof.
  intros Hget Hdb. cbv zeta.
  unfold updateConnectionStatus, bind, gets, modify, db_run. simpl.
  rewrite Hget. simpl. rewrite Hdb. simpl.
  split; [reflexivity|]. split; [apply get_set_same|].
  split; [intros q Hq; apply get_set_other; exact Hq|].
  destruct (update_rows_spec st (Date_now (ext w)) p (connections_table d))
    as (_ & Hids & Hmine & Hothers).
  eexists. split; [reflexivity|]. split; [reflexivity|].
  split; [exact Hids|]. split; [exact Hmine | exact Hothers].
Qed.

(** With the database closed, [updateConnectionStatus] fails with a
    [TypeError], but not before it has changed the entry in the table:
    the new status stays although the call failed. *)
Theorem updateConnectionStatus_database_closed (p st : string) (c : Connection)
  (w : World E) :
  JsMap.get p (connections w) = Some c ->
  db w = None ->
  snd (updateConnectionStatus p st w)
  = Throw (TypeError "Cannot read properties of null (reading 'prepare')")
  /\ JsMap.get p (connections (fst (updateConnectionStatus p st w)))
     = Some (with_status st (Some (Date_now (ext w))) c).
Proof.
  intros Hget Hdb.
  unfold updateConnectionStatus, bind, gets, modify, db_run. simpl.
  rewrite Hget. simpl. rewrite Hdb. simpl.
  split; [reflexivity | apply get_set_same].
Qed.

(** For an id without a connection, [shouldRetryConnection] gives
    [undefined] (not [false]), and [retryConnection] and
    [updateConnectionStatus] do nothing at all: no entry is created, no
    timer set, no row written, no error raised. *)
Theorem no_connection_no_effect (p st : string) (w : World E) :
  JsMap.get p (connections w) = None ->
  shouldRetryConnection p w = JUndefined
  /\ retryConnection p w = (w, Ok tt)
  /\ updateConnectionStatus p st w = (w, Ok tt).
Proof.
  intros Hget.
  unfold shouldRetryConnection, retryConnection, updateConnectionStatus, bind, gets, ret.
  simpl. rewrite Hget. repeat split; reflexivity.
Qed.

(** *** When the monitor has nothing to do *)

Lemma monitor_step_quiet (close : string -> M (World E) unit) (now : Z) (k : string)
  (w : World E) :
  overdue now (config w) (connections w) k = false ->
  visit connections (monitorConnections_body_with close now) k w = (w, Ok tt).
Proof.
  unfold visit, bind, gets, overdue. cbv beta iota.
  destruct (JsMap.get k (connections w)) as [c|]; [|reflexivity].
  unfold monitorConnections_body_with, bind, gets. cbv beta iota.
  intros Hidle. rewrite Hidle. reflexivity.
Qed.

Lemma monitor_loop_quiet (close : string -> M (World E) unit) (now : Z) (w : World E)
  (ks : list string) :
  (forall k, overdue now (config w) (connections w) k = false) ->
  forEach ks (visit connections (monitorConnections_body_with close now)) w = (w, Ok tt).
Proof.
  intros Hidle. induction ks as [|k rest IH]; [reflexivity|].
  simpl forEach. unfold bind. rewrite (monitor_step_quiet close now k w (Hidle k)).
  exact IH.
Qed.

(** When no connection is overdue (none that is [connected] has been
    silent for longer than the timeout; one whose [lastActive] was
    never set does not count as silent), a run of the monitor does
    nothing at all, whatever [closeConnection] is: the timeout handler
    is not entered, nothing is logged, the state is the same. *)
Theorem monitorConnections_quiet (close : string -> M (World E) unit) (w : World E) :
  (forall p, overdue (Date_now (ext w)) (config w) (connections w) p = false) ->
  monitorConnections_with close w = (w, Ok tt)
  /\ monitorConnections w = (w, Ok tt).
Proof.
  intros Hidle. split.
  - exact (monitor_loop_quiet close (Date_now (ext w)) w (JsMap.keys (connections w)) Hidle).
  - exact (monitor_loop_quiet closeConnection (Date_now (ext w)) w
             (JsMap.keys (connections w)) Hidle).
Qed.

Section Unknown.

Context {handlers : Handlers E}.

(** A well-formed message whose type is none of the five known ones is
    dropped: [handleMessage] returns normally, calls no handler, and
    leaves one warning in the log. *)
Theorem handleMessage_unknown_type (message : JsValue) (type : string) (w : World E) :
  well_formed_message message = true ->
  prop message "type" = JString type ->
  P2PStates.known_type type = false ->
  handleMessage message w =
    (add_log (mkLog LWarn ("Unknown message type: " ++ type) None) w, Ok tt).
Proof.
  intros Hvalid Htype Hunknown.
  unfold handleMessage, try_catch, bind at 1.
  rewrite validateMessage_spec, Hvalid. cbn [negb].
  change (ret tt w) with (w, Ok tt). cbv iota.
  unfold dispatch. rewrite Htype.
  unfold P2PStates.known_type in Hunknown. simpl in Hunknown.
  repeat (apply orb_false_iff in Hunknown; destruct Hunknown as [?H Hunknown]).
  rewrite H, H0, H1, H2, H3. reflexivity.
Qed.

End Unknown.

End Supervisor.

Lemma initializeConnection_at_limit_witness :
  maxConnections (limits crowded_world) <= JsMap.size (connections crowded_world)
  /\ @initializeConnection Net wire as_shipped alice_id crowded_world
     = (crowded_world, Throw ConnectionLimitExceeded).
Proof.
  assert (H : maxConnections (limits crowded_world) <= JsMap.size (connections crowded_world))
    by (vm_compute; discriminate).
  split; [exact H|].
  exact (@initializeConnection_at_limit Net wire as_shipped alice_id crowded_world H).
Defined.


Lemma establishConnection_as_shipped_witness :
  JsMap.get alice_id (peers alice_world) = Some alice
  /\ snd (@establishConnection Net wire as_shipped alice_id alice_world)
     = Throw (TypeError "this.handleConnectionError is not a function")
  /\ connections (fst (@establishConnection Net wire as_shipped alice_id alice_world))
     = connections alice_world
  /\ timers (fst (@establishConnection Net wire as_shipped alice_id alice_world))
     = timers alice_world.
Proof.
  assert (H : JsMap.get alice_id (peers alice_world) = Some alice)
    by (vm_compute; reflexivity).
  destruct (@establishConnection_as_shipped Net wire alice_id alice alice_world H)
    as (Hthrow & (_ & Hconn & _ & _ & _ & Htimers & _) & _).
  split; [exact H|]. split; [exact Hthrow|]. split; [exact Hconn | exact Htimers].
Defined.


Lemma addPeer_within_limits_witness :
  P2PStates.within_limits full_world
  /\ P2PStates.within_limits (fst (@addPeer Net wire alice full_world)).
Proof.
  assert (H : P2PStates.within_limits full_world)
    by (split; vm_compute; discriminate).
  destruct (@addPeer_within_limits Net wire alice full_world H) as [_ Hadd].
  split; [exact H | exact Hadd].
Defined.

Lemma addPeer_database_closed_witness :
  JsMap.size (peers P2PStates.unopened_world) < maxPeers (limits P2PStates.unopened_world)
  /\ db P2PStates.unopened_world = None
  /\ fst (@addPeer Net wire alice P2PStates.unopened_world) = P2PStates.unopened_world.
Proof.
  assert (H : JsMap.size (peers P2PStates.unopened_world)
              < maxPeers (limits P2PStates.unopened_world)) by reflexivity.
  split; [exact H|]. split; [reflexivity|].
  rewrite (@addPeer_database_closed Net wire alice P2PStates.unopened_world H eq_refl).
  reflexivity.
Defined.

Lemma addPeer_new_peer_witness :
  JsMap.get (generatePeerId alice) (peers (fresh_world 0 [])) = None
  /\ peers (fst (@addPeer Net wire alice (fresh_world 0 []))) = [(alice_id, alice)]
  /\ JsMap.size (peers (fst (@addPeer Net wire alice (fresh_world 0 [])))) = 1.
Proof.
  destruct (@addPeer_new_peer Net wire alice emptyDatabase (fresh_world 0 [])
              eq_refl eq_refl eq_refl) as (Hpeers & Hsize & _).
  split; [reflexivity|]. split.
  - rewrite Hpeers. vm_compute. reflexivity.
  - rewrite Hsize. reflexivity.
Defined.

Lemma updateConnectionStatus_known_witness :
  JsMap.get alice_id (connections unreachable_world)
  = Some (newConnection "uuid-0" alice_id 1700000000000)
  /\ db unreachable_world = Some P2PStates.unreachable_db
  /\ option_map status
       (JsMap.get alice_id
          (connections
             (fst (@updateConnectionStatus Net wire alice_id "connected"
                     unreachable_world))))
     = Some "connected".
Proof.
  assert (H1 : JsMap.get alice_id (connections unreachable_world)
               = Some (newConnection "uuid-0" alice_id 1700000000000))
    by (vm_compute; reflexivity).
  destruct (@updateConnectionStatus_known Net wire alice_id "connected" _
              P2PStates.unreachable_db unreachable_world H1 eq_refl)
    as (_ & Hentry & _).
  split; [exact H1|]. split; [reflexivity|].
  rewrite Hentry. reflexivity.
Defined.

Lemma updateConnectionStatus_database_closed_witness :
  JsMap.get alice_id (connections P2PStates.crashed_world)
  = Some (newConnection "uuid-0" alice_id 1700000000000)
  /\ db P2PStates.crashed_world = None
  /\ option_map status
       (JsMap.get alice_id
          (connections
             (fst (@updateConnectionStatus Net wire alice_id "connected"
                     P2PStates.crashed_world))))
     = Some "connected".
Proof.
  assert (H1 : JsMap.get alice_id (connections P2PStates.crashed_world)
               = Some (newConnection "uuid-0" alice_id 1700000000000))
    by (vm_compute; reflexivity).
  destruct (@updateConnectionStatus_database_closed Net wire alice_id "connected" _
              P2PStates.crashed_world H1 eq_refl) as [_ Hentry].
  split; [exact H1|]. split; [reflexivity|].
  rewrite Hentry. reflexivity.
Defined.

Lemma no_connection_no_effect_witness :
  JsMap.get "ghost" (connections alice_world) = None
  /\ shouldRetryConnection "ghost" alice_world = JUndefined
  /\ retryConnection "ghost" alice_world = (alice_world, Ok tt).
Proof.
  assert (H : JsMap.get "ghost" (connections alice_world) = None)
    by (vm_compute; reflexivity).
  destruct (@no_connection_no_effect Net wire "ghost" "closed" alice_world H)
    as (Hshould & Hretry & _).
  split; [exact H|]. split; [exact Hshould | exact Hretry].
Defined.

(** Alice's connection was active just now. *)
Lemma monitorConnections_quiet_witness :
  (forall p, overdue (clock (ext alice_world)) (config alice_world)
               (connections alice_world) p = false)
  /\ @monitorConnections_with Net wire no_closeConnection alice_world = (alice_world, Ok tt)
  /\ @monitorConnections Net wire alice_world = (alice_world, Ok tt).
Proof.
  assert (H : forall p, overdue (clock (ext alice_world)) (config alice_world)
                          (connections alice_world) p = false).
  { intros p. unfold overdue. simpl.
    match goal with
    | |- context [(p =? ?x)%string] => destruct (p =? x)%string
    end; reflexivity. }
  destruct (@monitorConnections_quiet Net wire no_closeConnection alice_world H)
    as [Hquiet Hquiet'].
  split; [exact H|]. split; [exact Hquiet | exact Hquiet'].
Defined.

Lemma handleMessage_unknown_type_witness :
  well_formed_message P2PStates.test_message = true
  /\ @handleMessage Net no_handlers P2PStates.test_message (fresh_world 0 [])
     = (add_log (mkLog LWarn "Unknown message type: TEST" None) (fresh_world 0 []), Ok tt).
Proof.
  split; [reflexivity|].
  apply (@handleMessage_unknown_type Net no_handlers P2PStates.test_message "TEST");
    reflexivity.
Defined.

End P2PMore.

(** ** Removing a peer *)

Module RemovalSpec.

Import P2P Removal AsyncFacts JsMapFacts.





Lemma delete_absent {V} (k : string) (m : JsMap.t V) :
  JsMap.get k m = None -> JsMap.delete k m = m.
Proof.
  unfold JsMap.delete. induction m as [|[k' v] rest IH]; simpl; [reflexivity|].
  destruct (k =? k')%string eqn:Hk; [discriminate|].
  intros Hget. rewrite String.eqb_sym, Hk. simpl. rewrite (IH Hget). reflexivity.
Qed.

(** [delete] undoes a [set] of a new key. *)
Lemma delete_set_absent {V} (k : string) (v : V) (m : JsMap.t V) :
  JsMap.get k m = None -> JsMap.delete k (JsMap.set k v m) = m.
Proof.
  intros Hget. rewrite (set_absent k v m Hget). unfold JsMap.delete.
  rewrite filter_app. simpl. rewrite String.eqb_refl. simpl. rewrite app_nil_r.
  apply (delete_absent k m Hget).
Qed.

Section Removing.

Context {E : Type}.

Variable close : string -> M (Instance E) unit.

Lemma closing_step_no_connection (p : string) (i : Instance E) :
  JsMap.get p (connections (net i)) = None ->
  closing_step close p i = (i, Ok tt).
Proof.
  intros Hget. unfold closing_step, bind, gets. cbv beta iota. rewrite Hget. reflexivity.
Qed.

Lemma closing_step_connection (p : string) (c : Connection) (i : Instance E) :
  JsMap.get p (connections (net i)) = Some c ->
  closing_step close p i = close p i.
Proof.
  intros Hget. unfold closing_step, bind, gets. cbv beta iota. rewrite Hget. reflexivity.
Qed.

(** The whole of [removePeer], by the outcome of its first step. *)
Lemma removePeer_run (p : string) (i : Instance E) :
  removePeer close p i =
    match closing_step close p i with
    | (i1, Throw err) => (i1, Throw err)
    | (i1, Ok _) =>
        match db (net i1) with
        | None =>
            (i1, Throw (TypeError "Cannot read properties of null (reading 'prepare')"))
        | Some d => (purged p d i1, Ok tt)
        end
    end.
Proof.
  unfold removePeer, bind at 1.
  destruct (closing_step close p i) as [i1 [[]|err]]; [|reflexivity].
  unfold bind, lift, db_run, delete_resource_rows, forget_resourceInfo, modify, purged.
  simpl. destruct (db (net i1)) as [d|] eqn:Hdb; simpl.
  - reflexivity.
  - destruct i1; reflexivity.
Qed.



(** When the peer has an entry in the connection table and closing it
    fails, [removePeer] fails with the same error and deletes nothing:
    the state is the one the failed call left.  In the class as the
    file has it the call always fails, so a peer that has a connection
    entry, as every peer added below the connection limit has, cannot
    be removed: [removePeer] rejects with a [TypeError] and the
    instance is as it was. *)
Theorem removePeer_close_fails (p : string) (c : Connection) (i : Instance E) :
  JsMap.get p (connections (net i)) = Some c ->
  (forall i1 err,
     close p i = (i1, Throw err) ->
     removePeer close p i = (i1, Throw err))
  /\ removePeer no_closeConnection p i
     = (i, Throw (TypeError "this.closeConnection is not a function")).
Proof.
  intros Hget. split.
  - intros i1 err Hfail.
    rewrite removePeer_run, (closing_step_connection p c i Hget), Hfail. reflexivity.
  - unfold removePeer, bind at 1, closing_step, bind, gets. cbv beta iota.
    rewrite Hget. reflexivity.
Qed.


(** With the database closed, and no connection entry for the peer,
    [removePeer] fails with a [TypeError] at its first [DELETE] and
    the instance is as it was: the peer stays registered. *)
Theorem removePeer_database_closed (p : string) (i : Instance E) :
  JsMap.get p (connections (net i)) = None ->
  db (net i) = None ->
  removePeer close p i
  = (i, Throw (TypeError "Cannot read properties of null (reading 'prepare')")).
Proof.
  intros Hget Hdb.
  rewrite removePeer_run, (closing_step_no_connection p i Hget), Hdb. reflexivity.
Qed.

End Removing.


(** Alice, added to a fresh instance and given a connection by
    [addPeer], as in the test "should remove peers". *)
Lemma removePeer_close_fails_witness :
  (exists c, JsMap.get alice_id (connections (net alice_instance)) = Some c)
  /\ removePeer no_closeConnection alice_id alice_instance
     = (alice_instance, Throw (TypeError "this.closeConnection is not a function"))
  /\ JsMap.get alice_id (peers (net alice_instance)) = Some alice.
Proof.
  assert (H : JsMap.get alice_id (connections (net alice_instance))
              = Some P2PStates.alice_connected)
    by (vm_compute; reflexivity).
  destruct (@removePeer_close_fails Net no_closeConnection alice_id _ alice_instance H)
    as [_ Hshipped].
  split; [eexists; exact H|]. split; [exact Hshipped|].
  vm_compute. reflexivity.
Defined.


Lemma removePeer_database_closed_witness :
  JsMap.get alice_id (connections (net unopened_instance)) = None
  /\ db (net unopened_instance) = None
  /\ removePeer no_closeConnection alice_id unopened_instance
     = (unopened_instance,
        Throw (TypeError "Cannot read properties of null (reading 'prepare')")).
Proof.
  split; [reflexivity|]. split; [reflexivity|].
  exact (@removePeer_database_closed Net no_closeConnection alice_id unopened_instance
           eq_refl eq_refl).
Defined.

End RemovalSpec.

(** ** Resource limits and network state *)

Module MonitoringSpec.

Import Monitoring.

Lemma reaches_spec (x b : Q) : reaches x (Some b) = true <-> (b <= x)%Q.
Proof. unfold reaches. apply Qle_bool_iff. Qed.

Lemma reaches_below (x b : Q) : reaches x (Some b) = false <-> (x < b)%Q.
Proof.
  unfold reaches. split.
  - intros Hno. apply Qnot_le_lt. intros Hle. apply Qle_bool_iff in Hle.
    rewrite Hle in Hno. discriminate Hno.
  - intros Hlt. destruct (Qle_bool b x) eqn:Hle; [|reflexivity].
    apply Qle_bool_iff in Hle. exfalso. exact (Qlt_not_le _ _ Hlt Hle).
Qed.

Lemma exceeds_within (x b : Q) : (x <= b)%Q -> exceeds x (Some b) = false.
Proof.
  intros Hle. unfold exceeds. apply Qle_bool_iff in Hle. rewrite Hle. reflexivity.
Qed.

Lemma exceeds_beyond (x b : Q) : (b < x)%Q -> exceeds x (Some b) = true.
Proof.
  intros Hlt. unfold exceeds. destruct (Qle_bool x b) eqn:Hle; [|reflexivity].
  apply Qle_bool_iff in Hle. exfalso. exact (Qlt_not_le _ _ Hlt Hle).
Qed.

Section OnAHost.

Context {E : Type} {host : Host E}.

(** [getNetworkStatus] never answers "degraded", whatever the two
    checks give, and with [checkP2PConnections] the placeholder it is,
    never "p2p-connected" either: the answer is "online" or "offline"
    as [navigator.onLine] is truthy or not, and an exception of that
    read is passed on.  The instance is not changed. *)
Theorem getNetworkStatus_values (w : Node E) :
  (forall hasP2PConnections hasInternetConnection,
     overall_status hasP2PConnections hasInternetConnection <> "degraded")
  /\ (forall v,
        navigator_onLine (ext w) = Ok v ->
        getNetworkStatus w = (w, Ok (if truthy v then "online" else "offline")))
  /\ (forall err,
        navigator_onLine (ext w) = Throw err ->
        getNetworkStatus w = (w, Throw err))
  /\ snd (getNetworkStatus w) <> Ok "p2p-connected"
  /\ snd (getNetworkStatus w) <> Ok "degraded".
Proof.
  split.
  { intros a b. unfold overall_status.
    destruct (truthy a), (truthy b); simpl; discriminate. }
  unfold getNetworkStatus, checkInternetConnection, bind, ret, overall_status,
    checkP2PConnections. simpl.
  destruct (navigator_onLine (ext w)) as [v|err].
  - split. { intros v' Hv. injection Hv as Hv. subst v'. destruct (truthy v); reflexivity. }
    split; [discriminate|].
    destruct (truthy v); simpl; split; discriminate.
  - split; [discriminate|].
    split. { intros err' Herr. injection Herr as Herr. subst err'. reflexivity. }
    split; discriminate.
Qed.

(** With all three bounds in place, [ensureResourcesAvailable]
    resolves exactly when every reading is strictly below its bound;
    a reading that is at its bound is refused.  The error names the
    first bound reached, in the order storage, CPU, memory.  Apart from
    the reads outside, nothing is changed. *)
Theorem ensureResourcesAvailable_outcome (w : Node E) (e : E) (m : Reading) (q c l : Q) :
  readMetrics (ext w) = (e, Ok m) ->
  bounded (resourceMetrics w) q c l ->
  fst (ensureResourcesAvailable w) = set_ext e w
  /\ (snd (ensureResourcesAvailable w) = Ok tt
      <-> (storage_used m < q /\ cpu_current m < c /\ memory_used m < l)%Q)
  /\ ((q <= storage_used m)%Q ->
      snd (ensureResourcesAvailable w) = Throw (Error "STORAGE_FULL"))
  /\ ((storage_used m < q)%Q -> (c <= cpu_current m)%Q ->
      snd (ensureResourcesAvailable w) = Throw (Error "CPU_LIMIT_EXCEEDED"))
  /\ ((storage_used m < q)%Q -> (cpu_current m < c)%Q -> (l <= memory_used m)%Q ->
      snd (ensureResourcesAvailable w) = Throw (Error "MEMORY_LIMIT_EXCEEDED")).
Proof.
  intros Hread (Hq & Hc & Hl).
  unfold ensureResourcesAvailable, getCurrentResourceMetrics, bind, gets, throw, ret.
  rewrite Hread. simpl. rewrite Hq, Hc, Hl.
  destruct (reaches (storage_used m) (Some q)) eqn:Hs;
    [apply reaches_spec in Hs | apply reaches_below in Hs].
  { split; [reflexivity|]. split.
    - split; [discriminate|]. intros (Hlt & _). exfalso. exact (Qlt_not_le _ _ Hlt Hs).
    - split; [reflexivity|].
      split; intros Hlt; exfalso; exact (Qlt_not_le _ _ Hlt Hs). }
  destruct (reaches (cpu_current m) (Some c)) eqn:Hcpu;
    [apply reaches_spec in Hcpu | apply reaches_below in Hcpu].
  { split; [reflexivity|]. split.
    - split; [discriminate|]. intros (_ & Hlt & _). exfalso. exact (Qlt_not_le _ _ Hlt Hcpu).
    - split; [intros Hle; exfalso; exact (Qlt_not_le _ _ Hs Hle)|].
      split; [reflexivity|].
      intros _ Hlt. exfalso. exact (Qlt_not_le _ _ Hlt Hcpu). }
  destruct (reaches (memory_used m) (Some l)) eqn:Hmem;
    [apply reaches_spec in Hmem | apply reaches_below in Hmem].
  { split; [reflexivity|]. split.
    - split; [discriminate|]. intros (_ & _ & Hlt). exfalso. exact (Qlt_not_le _ _ Hlt Hmem).
    - split; [intros Hle; exfalso; exact (Qlt_not_le _ _ Hs Hle)|].
      split; [intros _ Hle; exfalso; exact (Qlt_not_le _ _ Hcpu Hle)|].
      reflexivity. }
  split; [reflexivity|]. split.
  - split; [intros _; repeat split; assumption | reflexivity].
  - split; [intros Hle; exfalso; exact (Qlt_not_le _ _ Hs Hle)|].
    split; [intros _ Hle; exfalso; exact (Qlt_not_le _ _ Hcpu Hle)|].
    intros _ _ Hle. exfalso. exact (Qlt_not_le _ _ Hmem Hle).
Qed.

Section WithHandlers.

Context {handlers : LimitHandlers E}.

Lemma enforceResourceLimits_idle (m : Reading) (w : Node E) :
  exceeds (storage_used m) (bound (storage (resourceMetrics w))) = false ->
  exceeds (cpu_current m) (bound (cpu (resourceMetrics w))) = false ->
  exceeds (memory_used m) (bound (memory (resourceMetrics w))) = false ->
  enforceResourceLimits m w = (w, Ok tt).
Proof.
  intros Hs Hc Hm. unfold enforceResourceLimits, bind, gets, ret. simpl.
  rewrite Hs. simpl. rewrite Hc. simpl. rewrite Hm. reflexivity.
Qed.

(** A reading that does not exceed its bounds, one exactly at a bound
    included, makes [enforceResourceLimits] do nothing, whatever the
    handlers are: none is called.  So a disk exactly at its quota is
    refused by [ensureResourcesAvailable] and let through here. *)
Theorem enforceResourceLimits_within (m : Reading) (w : Node E) (e : E) (q c l : Q) :
  bounded (resourceMetrics w) q c l ->
  (storage_used m <= q)%Q ->
  (cpu_current m <= c)%Q ->
  (memory_used m <= l)%Q ->
  enforceResourceLimits m w = (w, Ok tt)
  /\ (readMetrics (ext w) = (e, Ok m) ->
      (storage_used m == q)%Q ->
      snd (ensureResourcesAvailable w) = Throw (Error "STORAGE_FULL")).
Proof.
  intros (Hq & Hc & Hl) Hs Hcpu Hmem. split.
  - apply enforceResourceLimits_idle.
    + rewrite Hq. apply exceeds_within. exact Hs.
    + rewrite Hc. apply exceeds_within. exact Hcpu.
    + rewrite Hl. apply exceeds_within. exact Hmem.
  - intros Hread Heq.
    unfold ensureResourcesAvailable, getCurrentResourceMetrics, bind, gets, throw, ret.
    rewrite Hread. simpl. rewrite Hq.
    assert (Hfull : reaches (storage_used m) (Some q) = true)
      by (apply reaches_spec; rewrite Heq; apply Qle_refl).
    rewrite Hfull. reflexivity.
Qed.

End WithHandlers.

(** In the class as the file has it, a reading beyond the storage
    quota makes [enforceResourceLimits] fail with the [TypeError] of
    the missing [handleStorageQuotaExceeded], before the CPU and the
    memory are looked at; with the storage within its quota and the
    CPU beyond its limit, it is the [TypeError] of the missing
    [handleCPULimitExceeded]; and so on.  Nothing is changed. *)
Theorem enforceResourceLimits_as_shipped (m : Reading) (w : Node E) (q c l : Q) :
  bounded (resourceMetrics w) q c l ->
  ((q < storage_used m)%Q ->
   @enforceResourceLimits E no_handlers m w
   = (w, Throw (TypeError "this.handleStorageQuotaExceeded is not a function")))
  /\ ((storage_used m <= q)%Q -> (c < cpu_current m)%Q ->
      @enforceResourceLimits E no_handlers m w
      = (w, Throw (TypeError "this.handleCPULimitExceeded is not a function")))
  /\ ((storage_used m <= q)%Q -> (cpu_current m <= c)%Q -> (l < memory_used m)%Q ->
      @enforceResourceLimits E no_handlers m w
      = (w, Throw (TypeError "this.handleMemoryLimitExceeded is not a function"))).
Proof.
  intros (Hq & Hc & Hl).
  unfold enforceResourceLimits, bind, gets, ret. simpl. rewrite Hq.
  split; [|split].
  - intros Hs. rewrite (exceeds_beyond _ _ Hs). reflexivity.
  - intros Hs Hcpu. rewrite (exceeds_within _ _ Hs). simpl. rewrite Hc.
    rewrite (exceeds_beyond _ _ Hcpu). reflexivity.
  - intros Hs Hcpu Hmem. rewrite (exceeds_within _ _ Hs). simpl. rewrite Hc.
    rewrite (exceeds_within _ _ Hcpu). simpl. rewrite Hl.
    rewrite (exceeds_beyond _ _ Hmem). reflexivity.
Qed.

(** *** A round of the monitor *)

Lemma enforceResourceLimits_unbounded (handlers : LimitHandlers E) (m m0 : Reading)
  (rm : ResourceMetrics) (w : Node E) :
  resourceMetrics w = spread rm m0 ->
  @enforceResourceLimits E handlers m w = (w, Ok tt).
Proof.
  intros Hrm. apply enforceResourceLimits_idle; rewrite Hrm; reflexivity.
Qed.

(** What a round comes to, whatever the handlers are. *)
Lemma monitoring_round_run (handlers : LimitHandlers E) (w : Node E) :
  @monitoring_round E host handlers w =
    match readMetrics (ext w) with
    | (e, Throw err) =>
        (fst (logger LError "Resource monitoring error:" (Some err) (set_ext e w)), Ok tt)
    | (e, Ok m) =>
        let w1 := set_resourceMetrics (spread (resourceMetrics w) m) (set_ext e w) in
        match db w with
        | None =>
            (fst (logger LError "Resource monitoring error:"
                    (Some (TypeError "Cannot read properties of null (reading 'prepare')"))
                    w1), Ok tt)
        | Some rows =>
            match navigator_onLine e with
            | Throw err =>
                (fst (logger LError "Resource monitoring error:" (Some err) w1), Ok tt)
            | Ok v =>
                match insert_metrics
                        {| timestamp := Date_now e;
                           cpu_usage := cpu_current m;
                           memory_usage := memory_used m;
                           storage_usage := storage_used m;
                           network_status := overall_status checkP2PConnections v |}
                        rows with
                | Throw err =>
                    (fst (logger LError "Resource monitoring error:" (Some err) w1), Ok tt)
                | Ok rows' => (set_rows rows' w1, Ok tt)
                end
            end
        end
    end.
Proof.
  unfold monitoring_round, try_catch, bind at 1, getCurrentResourceMetrics.
  destruct (readMetrics (ext w)) as [e [m|err]]; [|reflexivity].
  unfold bind at 1, modify at 1. unfold bind at 1, db_prepare at 1.
  cbn [db set_resourceMetrics set_ext]. destruct (db w) as [rows|]; [|reflexivity].
  unfold bind at 1, gets at 1. cbn [ext set_resourceMetrics set_ext].
  unfold bind at 1, getNetworkStatus, bind at 1, checkInternetConnection, ret.
  cbn [ext set_resourceMetrics set_ext].
  destruct (navigator_onLine e) as [v|err]; [|reflexivity].
  unfold bind at 1, of_result.
  match goal with
  | |- context [insert_metrics ?r rows] => destruct (insert_metrics r rows) as [rows'|err]
  end; [|reflexivity].
  unfold bind at 1, modify at 1.
  rewrite (enforceResourceLimits_unbounded handlers m m (resourceMetrics w)) by reflexivity.
  reflexivity.
Qed.

(** A round of the monitor never enforces a limit.  Its first step
    replaces [this.resourceMetrics] by the merged object, which has
    the new levels and no bound any more, and the comparisons that
    follow are against [undefined]: the round is the same whatever the
    three handlers are, because none is called, and it never throws. *)
Theorem monitoring_round_never_enforces (h1 h2 : LimitHandlers E) (w : Node E) :
  @monitoring_round E host h1 w = @monitoring_round E host h2 w
  /\ snd (@monitoring_round E host h1 w) = Ok tt.
Proof.
  rewrite (monitoring_round_run h1 w), (monitoring_round_run h2 w).
  split; [reflexivity|].
  destruct (readMetrics (ext w)) as [e [m|err]]; [|reflexivity].
  cbv zeta. destruct (db w) as [rows|]; [|reflexivity].
  destruct (navigator_onLine e) as [v|err]; [|reflexivity].
  match goal with
  | |- context [insert_metrics ?r rows] => destruct (insert_metrics r rows) as [rows'|err]
  end; reflexivity.
Qed.

(** Once a round has read the metrics, the bounds are gone for good:
    whatever else the round did, [this.resourceMetrics] holds the
    levels just read and no quota or limit.  From then on
    [ensureResourcesAvailable] refuses nothing, and
    [enforceResourceLimits] finds nothing exceeded, whatever the
    readings. *)
Theorem monitoring_round_erases_limits (handlers : LimitHandlers E) (w : Node E)
  (e : E) (m : Reading) :
  readMetrics (ext w) = (e, Ok m) ->
  let w' := fst (@monitoring_round E host handlers w) in
  resourceMetrics w' = spread (resourceMetrics w) m
  /\ bound (storage (resourceMetrics w')) = None
  /\ bound (cpu (resourceMetrics w')) = None
  /\ bound (memory (resourceMetrics w')) = None
  /\ (forall (w2 : Node E) e2 m2,
        resourceMetrics w2 = resourceMetrics w' ->
        readMetrics (ext w2) = (e2, Ok m2) ->
        ensureResourcesAvailable w2 = (set_ext e2 w2, Ok tt))
  /\ (forall (w2 : Node E) m2,
        resourceMetrics w2 = resourceMetrics w' ->
        @enforceResourceLimits E handlers m2 w2 = (w2, Ok tt)).
Proof.
  intros Hread. cbv zeta.
  assert (Hrm : resourceMetrics (fst (@monitoring_round E host handlers w))
                = spread (resourceMetrics w) m).
  { rewrite monitoring_round_run, Hread. cbv zeta.
    destruct (db w) as [rows|]; [|reflexivity].
    destruct (navigator_onLine e) as [v|err]; [|reflexivity].
    match goal with
    | |- context [insert_metrics ?r rows] => destruct (insert_metrics r rows) as [rows'|err]
    end; reflexivity. }
  rewrite Hrm.
  split; [reflexivity|]. split; [reflexivity|]. split; [reflexivity|].
  split; [reflexivity|]. split.
  - intros w2 e2 m2 Hrm2 Hread2.
    unfold ensureResourcesAvailable, getCurrentResourceMetrics, bind, gets, ret.
    rewrite Hread2. cbn [resourceMetrics set_ext]. rewrite Hrm2. reflexivity.
  - intros w2 m2 Hrm2.
    apply (enforceResourceLimits_unbounded handlers m2 m (resourceMetrics w)). exact Hrm2.
Qed.

End OnAHost.

Lemma getNetworkStatus_values_witness :
  @navigator_onLine Probe probe_host (ext full_disk) = Ok (JBool true)
  /\ snd (@getNetworkStatus Probe probe_host full_disk) = Ok "online"
  /\ snd (@getNetworkStatus Probe probe_host overfull_disk) = Ok "offline".
Proof.
  destruct (@getNetworkStatus_values Probe probe_host full_disk) as (_ & Hon & _).
  destruct (@getNetworkStatus_values Probe probe_host overfull_disk) as (_ & Hoff & _).
  split; [reflexivity|]. split.
  - rewrite (Hon (JBool true) eq_refl). reflexivity.
  - rewrite (Hoff (JBool false) eq_refl). reflexivity.
Defined.

(** A disk exactly full: refused. *)
Lemma ensureResourcesAvailable_outcome_witness :
  @readMetrics Probe probe_host (ext full_disk) = (ext full_disk, Ok (reading (ext full_disk)))
  /\ bounded (resourceMetrics full_disk)
       (inject_Z (1024 * 1024 * 1024)) (3 # 4) (inject_Z (512 * 1024 * 1024))
  /\ snd (@ensureResourcesAvailable Probe probe_host full_disk)
     = Throw (Error "STORAGE_FULL").
Proof.
  assert (Hb : bounded (resourceMetrics full_disk)
                 (inject_Z (1024 * 1024 * 1024)) (3 # 4) (inject_Z (512 * 1024 * 1024)))
    by (repeat split; reflexivity).
  destruct (@ensureResourcesAvailable_outcome Probe probe_host full_disk _ _ _ _ _
              eq_refl Hb) as (_ & _ & Hfull & _).
  split; [reflexivity|]. split; [exact Hb|].
  apply Hfull. vm_compute. discriminate.
Defined.

(** The same disk, exactly full: let through by [enforceResourceLimits]
    although [ensureResourcesAvailable] refuses it. *)
Lemma enforceResourceLimits_within_witness :
  bounded (resourceMetrics full_disk)
    (inject_Z (1024 * 1024 * 1024)) (3 # 4) (inject_Z (512 * 1024 * 1024))
  /\ @enforceResourceLimits Probe no_handlers (reading (ext full_disk)) full_disk
     = (full_disk, Ok tt)
  /\ snd (@ensureResourcesAvailable Probe probe_host full_disk)
     = Throw (Error "STORAGE_FULL").
Proof.
  assert (Hb : bounded (resourceMetrics full_disk)
                 (inject_Z (1024 * 1024 * 1024)) (3 # 4) (inject_Z (512 * 1024 * 1024)))
    by (repeat split; reflexivity).
  destruct (@enforceResourceLimits_within Probe probe_host no_handlers
              (reading (ext full_disk)) full_disk (ext full_disk) _ _ _ Hb
              ltac:(vm_compute; discriminate)
              ltac:(vm_compute; discriminate)
              ltac:(vm_compute; discriminate)) as [Hidle Hrefused].
  split; [exact Hb|]. split; [exact Hidle|].
  apply Hrefused; reflexivity.
Defined.

(** A disk eight times over its quota, in the class as the file has
    it. *)
Lemma enforceResourceLimits_as_shipped_witness :
  bounded (resourceMetrics overfull_disk)
    (inject_Z (1024 * 1024 * 1024)) (3 # 4) (inject_Z (512 * 1024 * 1024))
  /\ (inject_Z (1024 * 1024 * 1024) < storage_used (reading (ext overfull_disk)))%Q
  /\ @enforceResourceLimits Probe no_handlers (reading (ext overfull_disk)) overfull_disk
     = (overfull_disk,
        Throw (TypeError "this.handleStorageQuotaExceeded is not a function")).
Proof.
  assert (Hb : bounded (resourceMetrics overfull_disk)
                 (inject_Z (1024 * 1024 * 1024)) (3 # 4) (inject_Z (512 * 1024 * 1024)))
    by (repeat split; reflexivity).
  assert (Hover : (inject_Z (1024 * 1024 * 1024)
                   < storage_used (reading (ext overfull_disk)))%Q)
    by (vm_compute; reflexivity).
  destruct (@enforceResourceLimits_as_shipped Probe (reading (ext overfull_disk))
              overfull_disk _ _ _ Hb) as (Hstorage & _).
  split; [exact Hb|]. split; [exact Hover|]. exact (Hstorage Hover).
Defined.

(** The overfull disk: refused before the first round of the monitor,
    accepted after it. *)
Lemma monitoring_round_erases_limits_witness :
  @readMetrics Probe probe_host (ext overfull_disk)
  = (ext overfull_disk, Ok (reading (ext overfull_disk)))
  /\ snd (@ensureResourcesAvailable Probe probe_host overfull_disk)
     = Throw (Error "STORAGE_FULL")
  /\ snd (@monitoring_round Probe probe_host no_handlers overfull_disk) = Ok tt
  /\ snd (@ensureResourcesAvailable Probe probe_host
            (fst (@monitoring_round Probe probe_host no_handlers overfull_disk)))
     = Ok tt.
Proof.
  destruct (@monitoring_round_erases_limits Probe probe_host no_handlers overfull_disk
              _ _ eq_refl) as (_ & _ & _ & _ & Hensure & _).
  split; [reflexivity|]. split; [vm_compute; reflexivity|].
  split; [vm_compute; reflexivity|].
  rewrite (Hensure _ _ _ eq_refl eq_refl). reflexivity.
Defined.

End MonitoringSpec.
